(** * Service fixtures of the text-generation-inference integration tests

A shallow embedding of
[text-generation-inference/integration-tests/service_fixtures.py]:
the health-check loop of [LauncherHandle], the log draining of
[ContainerLauncherHandle], the [docker_launcher] context manager and the
[generate_load_inner] fan-out, followed by the properties the
specification states about them.

Conventions of the embedding.
- External collaborators (the container runtime, the HTTP client, the
  wall clock, the file system, the process environment) are scripted:
  every call the code makes takes its answer from a record or function
  that the caller of the model supplies, and is recorded in a trace of
  events in execution order.
- Python exceptions are values of [exn]; code that can raise returns
  [A + exn].  Every constructor of [exn] stands for a subclass of
  Python's [Exception], which is what the runtime SDK, the HTTP client
  and the fixture itself raise.
- Wall-clock instants ([time.time()]) are integers counting clock ticks. *)

From Stdlib Require Import ZArith Lia List Bool Ascii String.
From Stdlib Require Import Decimal DecimalString DecimalNat Sorted.
From stdpp Require Import base strings list gmap.

Open Scope string_scope.
Open Scope list_scope.

Set Warnings "-abstract-large-number".

(** ** Strings *)

(** [str(n)] of a non-negative Python [int], as an f-string renders it. *)
Definition str_of_nat (n : nat) : string :=
  NilEmpty.string_of_uint (Nat.to_uint n).

(** [sub in s] on Python strings. *)
Fixpoint contains (s sub : string) : bool :=
  String.prefix sub s ||
  match s with
  | EmptyString => false
  | String _ s' => contains s' sub
  end.

(** ** Exceptions and the effect monad *)

Inductive exn : Type :=
  | NotFound                       (* docker.errors.NotFound *)
  | ClientConnectorError           (* aiohttp *)
  | ClientOSError                  (* aiohttp *)
  | ServerDisconnectedError        (* aiohttp *)
  | OtherException (detail : string) (* any other subclass of Exception *)
  | RuntimeError (msg : string)
  | AssertionError.

(** A computation over a state [S] that emits events of type [E] and either
    returns a value or raises. *)
Definition M (E S A : Type) : Type := S -> (A + exn) * S * list E.

Section Monad.
Context {E S : Type}.

Definition ret {A} (a : A) : M E S A := fun s => (inl a, s, []).

Definition raise {A} (e : exn) : M E S A := fun s => (inr e, s, []).

Definition bind {A B} (m : M E S A) (k : A -> M E S B) : M E S B :=
  fun s =>
    match m s with
    | (inl a, s1, t1) =>
        match k a s1 with (r, s2, t2) => (r, s2, t1 ++ t2) end
    | (inr e, s1, t1) => (inr e, s1, t1)
    end.

(** Record one event. *)
Definition emit (e : E) : M E S unit := fun s => (inl tt, s, [e]).

(** An external call: the event is recorded, then the scripted answer is
    returned or raised. *)
Definition call {A} (e : E) (answer : A + exn) : M E S A :=
  fun s => (answer, s, [e]).

Definition get_state : M E S S := fun s => (inl s, s, []).
Definition put_state (s : S) : M E S unit := fun _ => (inl tt, s, []).

(** [try: m  except <classes matched by h>: h e].  A handler that answers
    [None] does not match and the exception keeps propagating. *)
Definition try_except {A} (m : M E S A) (h : exn -> option (M E S A))
  : M E S A :=
  fun s =>
    match m s with
    | (inl a, s1, t1) => (inl a, s1, t1)
    | (inr e, s1, t1) =>
        match h e with
        | Some k => match k s1 with (r, s2, t2) => (r, s2, t1 ++ t2) end
        | None => (inr e, s1, t1)
        end
    end.

(** [try: m  finally: f]: [f] runs whatever [m] did; what [f] raises
    replaces the outcome of [m]. *)
Definition try_finally {A} (m : M E S A) (f : M E S unit) : M E S A :=
  fun s =>
    match m s with
    | (r, s1, t1) =>
        match f s1 with
        | (inl _, s2, t2) => (r, s2, t1 ++ t2)
        | (inr e, s2, t2) => (inr e, s2, t1 ++ t2)
        end
    end.

(** Run [m] and hand back how it ended instead of raising. *)
Definition attempt {A} (m : M E S A) : M E S (A + exn) :=
  fun s => match m s with (r, s1, t1) => (inl r, s1, t1) end.

(** [for i in l: body i], where the body answers [Some r] for [return r]
    and [None] to go on with the next element. *)
Fixpoint for_each {A R} (l : list A) (body : A -> M E S (option R))
  : M E S (option R) :=
  match l with
  | [] => ret None
  | i :: l' =>
      bind (body i) (fun r =>
        match r with
        | Some v => ret (Some v)
        | None => for_each l' body
        end)
  end.

End Monad.

(** The computations are written with stdpp's monad notations
    ([x ← m; k] and [m;; k]). *)
#[global] Instance M_ret {E S} : MRet (M E S) := fun A a => ret a.
#[global] Instance M_bind {E S} : MBind (M E S) := fun A B k m => bind m k.

(** [range(n)] for a Python [int]: empty when [n <= 0]. *)
Definition range (n : Z) : list nat := seq 0 (Z.to_nat n).

(** ** The health check (lines 40-77) *)

Module Health.

(** A line of container output with the instant the runtime stamped it. *)
Record log_line := LogLine { stamp : Z; text : string }.

Inductive event : Type :=
  | ContainersGet                 (* docker_client.containers.get(name) *)
  | ContainerLogs (since : Z)     (* container.logs(since=...) *)
  | TimeTime                      (* time.time() *)
  | Print (out : string)          (* print(container_output, end="") *)
  | Generate                      (* client.generate("test", max_new_tokens=1) *)
  | Sleep (seconds : nat)         (* time.sleep(1) *)
  | LogInfo (msg : string).       (* logger.info *)

(** What the outside world answers during one iteration of the loop. *)
Record poll := Poll {
  get_result : string + exn;  (* containers.get: the container's status, or raises *)
  served_at : Z;              (* instant at which the runtime serves container.logs *)
  refreshed_at : Z;           (* value of the time.time() that follows *)
  reply : unit + exn          (* outcome of the awaited client.generate *)
}.

(** The state of a [ContainerLauncherHandle] that changes: [_log_since]. *)
Record handle := Handle { _log_since : Z }.

(** [container.logs(since=w)] served at instant [now]: the lines stamped
    from [w] on that exist at [now]. *)
Definition logs (store : list log_line) (since now : Z) : list log_line :=
  List.filter (fun l => (since <=? stamp l)%Z && (stamp l <=? now)%Z) store.

(** [.decode("utf-8")] of the bytes the runtime returns. *)
Definition decode (ls : list log_line) : string :=
  fold_right (fun l acc => text l +:+ acc) "" ls.

Definition status_is_live (status : string) : bool :=
  String.eqb status "running" || String.eqb status "created".

Definition crashed_msg (i : nat) : string :=
  "Service crashed after " +:+ str_of_nat i +:+ " seconds.".
Definition started_msg (i : nat) : string :=
  "Service started after " +:+ str_of_nat i +:+ " seconds".
(** Line 60 is a plain string literal, not an f-string. *)
Definition fatal_msg : string := "Basic generation failed with: {e}".
Definition timeout_msg (i : nat) : string :=
  "Service failed to start after " +:+ str_of_nat i +:+ " seconds.".

Section WithWorld.
(** Everything the container writes, in emission order. *)
Variable store : list log_line.
(** The answers of the world at iteration [i]. *)
Variable script : nat -> poll.

(** [ContainerLauncherHandle._inner_health], lines 71-77. *)
Definition _inner_health (p : poll) : M event handle bool :=
  status ← call ContainersGet (get_result p);
  h ← get_state;
  emit (ContainerLogs (_log_since h));;
  let container_output := decode (logs store (_log_since h) (served_at p)) in
  emit TimeTime;;
  put_state (Handle (refreshed_at p));;
  (if String.eqb container_output "" then ret tt
   else emit (Print container_output));;
  ret (status_is_live status).

(** One iteration of the loop of [health], lines 50-60. *)
Definition health_body (i : nat) : M event handle (option unit) :=
  alive ← _inner_health (script i);
  if negb alive then raise (RuntimeError (crashed_msg i))
  else
    try_except
      (call Generate (reply (script i));;
       emit (LogInfo (started_msg i));;
       ret (Some tt))
      (fun e =>
         match e with
         | ClientConnectorError | ClientOSError | ServerDisconnectedError =>
             Some (emit (Sleep 1);; ret None)
         | _ => Some (raise (RuntimeError fatal_msg))
         end).

(** [LauncherHandle.health], lines 47-61.  After the loop [i] holds the
    last value of [range(timeout)]. *)
Definition health (timeout : Z) : M event handle unit :=
  if (timeout >? 0)%Z then
    r ← for_each (range timeout) health_body;
    match r with
    | Some _ => ret tt
    | None => raise (RuntimeError (timeout_msg (Z.to_nat timeout - 1)))
    end
  else raise AssertionError.

End WithWorld.

End Health.

(** ** The container launcher (lines 87-211) *)

Module Launcher.

Definition OPTIMUM_CACHE_REPO_ID : string := "optimum/neuron-testing-cache".

(** The container object a call is made on: the one found under the same
    name before the run (line 119) or the one started on line 171. *)
Inductive cref := Stale | Started.

Inductive level := Debug | Info | Error.

Inductive event : Type :=
  | ContainersGet (name : string)
  | Stop (c : cref) (timeout : option nat)
  | Wait (c : cref) (timeout : option nat)
  | TempDirCreate
  | CopyTree (src : string)
  | WriteDockerfile (from copy_to : string)
  | ImagesBuild (tag : string)
  | TempDirCleanup
  | ContainersRun (image_tag : string) (command : list string)
      (name : string) (environment : gmap string string) (port : nat)
  | Remove (force : bool)
  | ImageRemove (force : bool)
  | Log (lvl : level) (msg : string)
  | LogException (e : exn)
  | InScope (what : string).      (* activity of the body of the with block *)

(** The answers of the outside world during one use of the launcher. *)
Record world := World {
  port : nat;                            (* random.randint(8000, 10_000) *)
  os_environ : gmap string string;       (* os.environ *)
  isdir : string -> bool;                (* os.path.isdir *)
  stale_get : unit + exn;                (* containers.get(container_name), line 119 *)
  stale_stop : unit + exn;
  stale_wait : unit + exn;
  copytree : unit + exn;                 (* shutil.copytree *)
  build : string + exn;                  (* images.build: the id of the image *)
  run : unit + exn;                      (* containers.run *)
  stop : unit + exn;
  wait : unit + exn;
  remove : unit + exn;
  image_remove : unit + exn
}.

(** What the generator yields. *)
Record ContainerLauncherHandle := MkHandle {
  service_name : string;
  container_name : string;
  base_url : string
}.

(** How a suspended generator is resumed: [next(gen)] or [gen.throw(e)]. *)
Inductive resume := Next | Throw (e : exn).

(** A generator with one [yield]: the code up to the [yield] computes the
    yielded value and the rest of the generator. *)
Abbreviation Gen Y := (M event unit (Y * (resume -> M event unit unit))).

(** A [yield] statement that no [try] encloses: an exception thrown into
    the generator is raised at the [yield] and leaves the generator. *)
Definition yield_ {Y} (v : Y) (rest : M event unit unit) : Gen Y :=
  mret (v, fun r => match r with Next => rest | Throw e => raise e end).

(** [with cm as h: body h] for a [contextlib.contextmanager]:
    [__enter__] runs the generator to its [yield]; [__exit__] resumes it
    with [next] after a normal exit of the body and with [throw] of the
    exception that left the body otherwise.  What the resumed generator
    does is the outcome of the statement: an exception it lets through
    propagates, one it absorbs is suppressed. *)
Definition with_ {Y} (cm : Gen Y) (body : Y -> M event unit unit)
  : M event unit unit :=
  bind cm (fun '(h, rest) =>
    bind (attempt (body h)) (fun left =>
      match left with
      | inl _ => rest Next
      | inr e => rest (Throw e)
      end)).

Definition tuning_vars : list string :=
  ["HF_BATCH_SIZE"; "HF_SEQUENCE_LENGTH"; "HF_AUTO_CAST_TYPE"; "HF_NUM_CORES"].

Definition make_container_name (service : string) (p : nat) : string :=
  "tgi-tests-" +:+ service +:+ "-" +:+ str_of_nat p.

Definition derived_tag (container : string) : string := container +:+ "-img".

Section WithModule.
  (** Module constants read from outside: [os.getenv("DOCKER_IMAGE", ...)]
      and [huggingface_hub.get_token()]. *)
Variable DOCKER_IMAGE : string.
Variable HF_TOKEN : option string.
Variable w : world.

(** Lines 125-133. *)
Definition compose_env : gmap string string :=
  let env : gmap string string :=
    <["CUSTOM_CACHE_REPO" := OPTIMUM_CACHE_REPO_ID]>
      (<["LOG_LEVEL" := "info,text_generation_router=debug"]> ∅) in
  let env :=
    match HF_TOKEN with
    | Some token =>
        <["HF_TOKEN" := token]> (<["HUGGING_FACE_HUB_TOKEN" := token]> env)
    | None => env
    end in
  foldl (fun env var =>
           match os_environ w !! var with
           | Some v => <[var := v]> env
           | None => env
           end) env tuning_vars.

(** Lines 135-164: the image to run, the built image if any, and the
    model argument. *)
Definition provision (container model_name_or_path : string)
  : M event unit (string * option string * string) :=
  if isdir w model_name_or_path then
    let docker_tag := derived_tag container in
    emit (Log Info ("Building image on the flight derivated from "
                    +:+ DOCKER_IMAGE +:+ ", tagged with " +:+ docker_tag));;
    emit TempDirCreate;;
    '(image, container_model_id) ←
      try_finally
        (call (CopyTree model_name_or_path) (copytree w);;
         let container_model_id := "/data/" +:+ model_name_or_path in
         emit (WriteDockerfile DOCKER_IMAGE container_model_id);;
         image ← call (ImagesBuild docker_tag) (build w);
         mret (image, container_model_id))
        (emit TempDirCleanup);
    emit (Log Info ("Successfully built image " +:+ image));;
    emit (Log Debug "Build logs");;
    mret (docker_tag, Some image, container_model_id)
  else mret (DOCKER_IMAGE, None, model_name_or_path).

(** Lines 186-209. *)
Definition teardown (container : string) (image : option string)
  : M event unit unit :=
  try_finally
    (try_except
       (call (Stop Started (Some 60)) (stop w);;
        call (Wait Started (Some 60)) (wait w))
       (fun e => Some (emit (LogException e))))
    (emit (Log Info ("Removing container " +:+ container));;
     try_except
       (call (Remove true) (remove w))
       (fun e =>
          Some (emit (Log Error ("Error while removing container "
                                 +:+ container +:+ ", skipping"));;
                emit (LogException e)));;
     match image with
     | Some id =>
         emit (Log Info ("Cleaning image " +:+ id));;
         try_except
           (call (ImageRemove true) (image_remove w))
           (fun e =>
              match e with
              | NotFound => Some (mret tt)
              | _ =>
                  Some (emit (Log Error ("Error while removing image "
                                         +:+ id +:+ ", skipping"));;
                        emit (LogException e))
              end)
     | None => mret tt
     end).

(** Lines 118-123: a container left under the same name by an earlier run
    is stopped and waited for; only [NotFound] is caught. *)
Definition cleanup_stale (container : string) : M event unit unit :=
  try_except
    (call (ContainersGet container) (stale_get w);;
     call (Stop Stale None) (stale_stop w);;
     call (Wait Stale None) (stale_wait w))
    (fun e => match e with NotFound => Some (mret tt) | _ => None end).

(** [docker_launcher], lines 107-209. *)
Definition docker_launcher (service model_name_or_path : string)
    (trust_remote_code : bool) : Gen ContainerLauncherHandle :=
  let container := make_container_name service (port w) in
  cleanup_stale container;;
  let env := compose_env in
  '(docker_tag, image, container_model_id) ←
    provision container model_name_or_path;
  let args :=
    ["--model-id"; container_model_id; "--env"]
    ++ (if trust_remote_code then ["--trust-remote-code"] else []) in
  call (ContainersRun docker_tag args container env (port w)) (run w);;
  emit (Log Info ("Starting " +:+ container +:+ " container"));;
  yield_
    (MkHandle service container ("http://localhost:" +:+ str_of_nat (port w)))
    (teardown container image).

End WithModule.

End Launcher.

(** ** The load generator (lines 214-239) *)

Module Load.

Inductive event : Type :=
  | GenerateCall (prompt : string) (max_new_tokens : Z)
      (decoder_input_details : bool).

Section WithResponse.
  (** [text_generation.Response]. *)
Variable Response : Type.

(** How one request ends and when. *)
Record fate := Fate { outcome : Response + exn; finished_at : nat }.

(** The failure that completes first, the earlier submission winning a
    tie. *)
Fixpoint first_failure (fs : list fate) : option (nat * exn) :=
  match fs with
  | [] => None
  | f :: fs' =>
      match outcome f, first_failure fs' with
      | inl _, r => r
      | inr e, None => Some (finished_at f, e)
      | inr e, Some (t, e') =>
          if (finished_at f <=? t)%nat then Some (finished_at f, e)
          else Some (t, e')
      end
  end.

Fixpoint successes (fs : list fate) : list Response :=
  match fs with
  | [] => []
  | f :: fs' =>
      match outcome f with
      | inl r => r :: successes fs'
      | inr _ => successes fs'
      end
  end.

(** [await asyncio.gather] over the futures, with the default
    [return_exceptions=False]: the results in submission order when all
    the awaitables succeed, otherwise the first exception raised. *)
Definition gather (fs : list fate) : M event unit (list Response) :=
  match first_failure fs with
  | Some (_, e) => raise e
  | None => mret (successes fs)
  end.

(** The fate of the [i]-th request sent through the client. *)
Variable client : nat -> fate.

(** The comprehension of lines 233-235: one call of [client.generate]
    per element of the range, each giving an awaitable. *)
Fixpoint comprehension (prompt : string) (max_new_tokens : Z) (l : list nat)
  : M event unit (list fate) :=
  match l with
  | [] => mret []
  | i :: l' =>
      emit (GenerateCall prompt max_new_tokens true);;
      fs ← comprehension prompt max_new_tokens l';
      mret (client i :: fs)
  end.

(** [generate_load_inner], lines 232-237. *)
Definition generate_load_inner (prompt : string) (max_new_tokens n : Z)
  : M event unit (list Response) :=
  futures ← comprehension prompt max_new_tokens (range n);
  gather futures.

End WithResponse.

End Load.

(** * Observations

    The vocabulary of the statements below: views of the traces and
    conditions on the scripted world. *)

Section HealthObservations.
Import Health.
Variable store : list log_line.
Variable script : nat -> poll.

(** The classes of the first [except] clause of [health]. *)
Definition is_transient (e : exn) : bool :=
  match e with
  | ClientConnectorError | ClientOSError | ServerDisconnectedError => true
  | _ => false
  end.

(** An iteration that neither ends the probe nor fails it: the container
    is found in a live status and the request fails in a transient way. *)
Definition keeps_waiting (p : poll) : bool :=
  match get_result p, reply p with
  | inl st, inr e => status_is_live st && is_transient e
  | _, _ => false
  end.

(** The calls to the runtime, to the service and to [sleep] in a trace. *)
Definition is_probe_step (e : Health.event) : bool :=
  match e with
  | Health.ContainersGet | Generate | Sleep _ => true
  | _ => false
  end.
Definition probe_steps (t : list Health.event) : list Health.event :=
  List.filter is_probe_step t.

(** Seconds spent sleeping in a trace. *)
Fixpoint elapsed (t : list Health.event) : nat :=
  match t with
  | [] => 0
  | Sleep n :: t' => n + elapsed t'
  | _ :: t' => elapsed t'
  end.

(** [n] iterations that each query the container, send the request and
    sleep one second. *)
Fixpoint retry_rounds (n : nat) : list Health.event :=
  match n with
  | 0 => []
  | S n' => Health.ContainersGet :: Generate :: Sleep 1 :: retry_rounds n'
  end.

(** What [_inner_health] records once the container was found. *)
Definition drain_events (h : handle) (p : poll) : list Health.event :=
  [Health.ContainersGet; ContainerLogs (_log_since h); TimeTime]
  ++ (let out := decode (logs store (_log_since h) (served_at p)) in
      if String.eqb out "" then [] else [Print out]).

(** How the iteration that ends the loop ends it, with the probe steps it
    records. *)
Definition ends_at (k : nat) (r : option unit + exn) (tail : list Health.event)
  : Prop :=
  match r with
  | inl None => False
  | inl (Some _) =>
      (exists st, get_result (script k) = inl st /\ status_is_live st = true)
      /\ reply (script k) = inl tt
      /\ tail = [Health.ContainersGet; Generate]
  | inr e =>
      (get_result (script k) = inr e /\ tail = [Health.ContainersGet])
      \/ (exists st, get_result (script k) = inl st
                    /\ status_is_live st = false
                    /\ e = RuntimeError (crashed_msg k)
                    /\ tail = [Health.ContainersGet])
      \/ (exists st e0, get_result (script k) = inl st
                       /\ status_is_live st = true
                       /\ reply (script k) = inr e0
                       /\ is_transient e0 = false
                       /\ e = RuntimeError fatal_msg
                       /\ tail = [Health.ContainersGet; Generate])
  end.

(** The loop over [seq i n] either runs out after [n] waiting iterations or
    is ended by iteration [i + m] after [m] waiting ones. *)
Definition loop_ends (i n : nat) (r : option unit + exn)
    (tr : list Health.event) : Prop :=
  exists m, m <= n
    /\ (forall j, i <= j < i + m -> keeps_waiting (script j) = true)
    /\ ((r = inl None /\ m = n /\ probe_steps tr = retry_rounds n)
        \/ (m < n /\ exists tail, ends_at (i + m) r tail
                                 /\ probe_steps tr = retry_rounds m ++ tail)).


(** [_inner_health] called once per poll, the way the loop of [health]
    calls it once per iteration. *)
Fixpoint poll_all (ps : list poll) : M Health.event handle (list bool) :=
  match ps with
  | [] => mret []
  | p :: ps' =>
      alive ← _inner_health store p;
      rest ← poll_all ps';
      mret (alive :: rest)
  end.

(** What a trace wrote to the standard output. *)
Fixpoint stdout (t : list Health.event) : string :=
  match t with
  | [] => ""
  | Print out :: t' => out +:+ stdout t'
  | _ :: t' => stdout t'
  end.

(** The container was found by the poll. *)
Definition found (p : poll) : bool :=
  match get_result p with inl _ => true | inr _ => false end.

(** The intervals of instants the polls ask the runtime for, starting
    from the watermark [w]: from the watermark to the instant the logs are
    served, the watermark then moving to the clock value read next. *)
Fixpoint windows (w : Z) (ps : list poll) : list (Z * Z) :=
  match ps with
  | [] => []
  | p :: ps' => (w, served_at p) :: windows (refreshed_at p) ps'
  end.



(** The clock never goes back, and it moves on between the instant the
    logs are served and the reading of [time.time()] that follows. *)
Fixpoint clock_advances (w : Z) (ps : list poll) : Prop :=
  match ps with
  | [] => True
  | p :: ps' =>
      (w <= served_at p)%Z /\ (served_at p < refreshed_at p)%Z
      /\ clock_advances (refreshed_at p) ps'
  end.


(** A [print] of the empty string. *)
Definition is_empty_print (e : Health.event) : bool :=
  match e with
  | Print out => String.eqb out ""
  | _ => false
  end.


End HealthObservations.

Section LauncherObservations.
Import Launcher.

(** The calls of [teardown] to the runtime, on the container that was
    started and on the image that was built. *)
Definition is_teardown_call (e : Launcher.event) : bool :=
  match e with
  | Stop Started _ | Wait Started _ | Remove _ | ImageRemove _ => true
  | _ => false
  end.
Definition teardown_calls (t : list Launcher.event) : list Launcher.event :=
  List.filter is_teardown_call t.

(** The names a container environment can hold. *)
Definition container_env_names : list string :=
  ["LOG_LEVEL"; "CUSTOM_CACHE_REPO"; "HUGGING_FACE_HUB_TOKEN"; "HF_TOKEN"]
  ++ tuning_vars.

(** The environment before the tuning variables are looked at. *)
Definition base_env (token : option string) : gmap string string :=
  let env : gmap string string :=
    <["CUSTOM_CACHE_REPO" := OPTIMUM_CACHE_REPO_ID]>
      (<["LOG_LEVEL" := "info,text_generation_router=debug"]> ∅) in
  match token with
  | Some t => <["HF_TOKEN" := t]> (<["HUGGING_FACE_HUB_TOKEN" := t]> env)
  | None => env
  end.

(** The command line of the container. *)
Definition launch_args (model_id : string) (trust_remote_code : bool)
  : list string :=
  ["--model-id"; model_id; "--env"]
  ++ (if trust_remote_code then ["--trust-remote-code"] else []).

(** The steps of the build of a derived image, from the creation of the
    temporary directory to its removal. *)
Definition is_build_context_step (e : Launcher.event) : bool :=
  match e with
  | TempDirCreate | CopyTree _ | WriteDockerfile _ _ | ImagesBuild _
  | TempDirCleanup => true
  | _ => false
  end.
Definition build_context_steps (t : list Launcher.event)
  : list Launcher.event :=
  List.filter is_build_context_step t.

(** The calls that create something in the runtime: an image or a
    container. *)
Definition is_launch_step (e : Launcher.event) : bool :=
  match e with
  | ImagesBuild _ | ContainersRun _ _ _ _ _ => true
  | _ => false
  end.
Definition launch_steps (t : list Launcher.event) : list Launcher.event :=
  List.filter is_launch_step t.

(** The exceptions handed to [logger.exception], in order. *)
Fixpoint logged_exceptions (t : list Launcher.event) : list exn :=
  match t with
  | [] => []
  | LogException e :: t' => e :: logged_exceptions t'
  | _ :: t' => logged_exceptions t'
  end.

(** The exception of a call that raised, if it did. *)
Definition raised {A : Type} (r : A + exn) : list exn :=
  match r with
  | inl _ => []
  | inr e => [e]
  end.

(** How the three calls on a container left by an earlier run end: the
    first of them that raises decides. *)
Definition stale_outcome (w : world) : unit + exn :=
  match stale_get w with
  | inr e => inr e
  | inl _ =>
      match stale_stop w with
      | inr e => inr e
      | inl _ => stale_wait w
      end
  end.

End LauncherObservations.

(** ** Scripted worlds used as examples *)

Section Examples.
Import Health.

(** A container that stays up while the service refuses connections. *)
Definition never_ready (i : nat) : poll :=
  Poll (inl "running") (10 * Z.of_nat i + 5) (10 * Z.of_nat i + 7)
    (inr ClientConnectorError).





(** Lines written while the runtime is not being polled. *)
Definition three_lines : list log_line :=
  [LogLine 3 "a"; LogLine 9 "b"; LogLine 12 "c"].

(** A host where nothing goes wrong: no stale container, a model
    directory at [/tmp/model], every call of the runtime succeeds. *)
Definition calm_world : Launcher.world :=
  Launcher.World 8123
    (<["HF_NUM_CORES" := "2"]> (<["PATH" := "/usr/bin"]> ∅))
    (fun path => String.eqb path "/tmp/model")
    (inr NotFound) (inl tt) (inl tt)
    (inl tt) (inl "sha256:1") (inl tt)
    (inl tt) (inl tt) (inl tt) (inl tt).

(** The same host, where stopping the container fails. *)
Definition stop_fails_world : Launcher.world :=
  Launcher.World 8123
    (<["HF_NUM_CORES" := "2"]> (<["PATH" := "/usr/bin"]> ∅))
    (fun path => String.eqb path "/tmp/model")
    (inr NotFound) (inl tt) (inl tt)
    (inl tt) (inl "sha256:1") (inl tt)
    (inr (OtherException "read timed out")) (inl tt) (inl tt) (inl tt).

(** A body of the with block whose health check finds the service dead. *)
Definition failing_body (h : Launcher.ContainerLauncherHandle)
  : M Launcher.event unit unit :=
  emit (Launcher.InScope "health");;
  raise (RuntimeError (Health.crashed_msg 0)).

(** A body of the with block that ends normally. *)
Definition passing_body (h : Launcher.ContainerLauncherHandle)
  : M Launcher.event unit unit :=
  emit (Launcher.InScope "health");;
  emit (Launcher.InScope "generate_load").

(** Four requests that all succeed, finishing in the reverse of the order
    of submission. *)
Definition all_answer (i : nat) : Load.fate string :=
  Load.Fate string (inl ("answer " +:+ str_of_nat i)) (10 - i).

(** Four requests of which the second fails. *)
Definition second_fails (i : nat) : Load.fate string :=
  Load.Fate string
    (if Nat.eqb i 1 then inr (OtherException "overloaded")
     else inl ("answer " +:+ str_of_nat i))
    (10 - i).

(** A service that refuses two connections and then answers. *)
Definition ready_at_2 (i : nat) : Health.poll :=
  Health.Poll (inl "running") (10 * Z.of_nat i + 5) (10 * Z.of_nat i + 7)
    (if Nat.ltb i 2 then inr ClientConnectorError else inl tt).


(** The calm host with one answer of the runtime changed. *)
Definition stale_world : Launcher.world :=
  Launcher.World 8123 ∅ (fun path => String.eqb path "/tmp/model")
    (inl tt) (inl tt) (inl tt)
    (inl tt) (inl "sha256:1") (inl tt)
    (inl tt) (inl tt) (inl tt) (inl tt).

Definition stale_error_world : Launcher.world :=
  Launcher.World 8123 ∅ (fun path => String.eqb path "/tmp/model")
    (inl tt) (inr (OtherException "conflict")) (inl tt)
    (inl tt) (inl "sha256:1") (inl tt)
    (inl tt) (inl tt) (inl tt) (inl tt).

Definition run_fails_world : Launcher.world :=
  Launcher.World 8123 ∅ (fun path => String.eqb path "/tmp/model")
    (inr NotFound) (inl tt) (inl tt)
    (inl tt) (inl "sha256:1") (inr (OtherException "no such device"))
    (inl tt) (inl tt) (inl tt) (inl tt).

(** Four requests that all succeed, finishing in the order of submission. *)
Definition all_answer_in_order (i : nat) : Load.fate string :=
  Load.Fate string (inl ("answer " +:+ str_of_nat i)) i.

End Examples.

(** * Properties *)

(** ** Generic facts *)

Lemma prefix_append (sub post : string) : String.prefix sub (sub +:+ post) = true.
Proof.
  induction sub as [|c sub IH]; simpl.
  - now destruct post.
  - destruct (ascii_dec c c); [exact IH | congruence].
Qed.

Lemma contains_of_prefix (s sub : string) :
  String.prefix sub s = true -> contains s sub = true.
Proof.
  intros H. destruct s as [|c s].
  - destruct sub; [reflexivity | discriminate].
  - cbn [contains]. rewrite H. reflexivity.
Qed.

Lemma contains_infix (pre sub post : string) :
  contains (pre +:+ sub +:+ post) sub = true.
Proof.
  induction pre as [|c pre IH].
  - change ("" +:+ sub +:+ post) with (sub +:+ post).
    apply contains_of_prefix, prefix_append.
  - change (String c pre +:+ sub +:+ post)
      with (String c (pre +:+ sub +:+ post)).
    cbn [contains]. rewrite IH. apply orb_true_r.
Qed.

Lemma list_ascii_app (a b : string) :
  list_ascii_of_string (a +:+ b)
  = list_ascii_of_string a ++ list_ascii_of_string b.
Proof.
  induction a as [|c a IH]; [reflexivity|].
  change (c :: list_ascii_of_string (a +:+ b)
          = c :: (list_ascii_of_string a ++ list_ascii_of_string b)).
  now rewrite IH.
Qed.

Lemma list_ascii_inj (a b : string) :
  list_ascii_of_string a = list_ascii_of_string b -> a = b.
Proof.
  intros H. rewrite <- (string_of_list_ascii_of_string a),
    <- (string_of_list_ascii_of_string b). now rewrite H.
Qed.

(** The decimal digits of a number hold no dash. *)
Lemma digits_have_no_dash (u : uint) :
  ~ In "-"%char (list_ascii_of_string (NilEmpty.string_of_uint u)).
Proof.
  induction u; simpl; intros H; try (destruct H as [H|H]; [discriminate H|]);
    auto.
Qed.

(** Two lists that end with a separator followed by text without the
    separator are cut at the same place. *)
Lemma split_at_last_separator {A : Type} (x : A) (l1 l2 d1 d2 : list A) :
  ~ In x d1 -> ~ In x d2 ->
  l1 ++ x :: d1 = l2 ++ x :: d2 -> l1 = l2 /\ d1 = d2.
Proof.
  intros H1 H2. revert l2.
  induction l1 as [|a l1 IH]; intros [|b l2] H; simpl in H.
  - injection H as ->. auto.
  - injection H as -> ->. exfalso. apply H1. apply in_or_app. right. now left.
  - injection H as -> <-. exfalso. apply H2. apply in_or_app. right. now left.
  - injection H as -> H. destruct (IH _ H) as [-> ->]. auto.
Qed.

Lemma str_of_nat_inj (n m : nat) : str_of_nat n = str_of_nat m -> n = m.
Proof.
  unfold str_of_nat. intros H.
  apply DecimalNat.Unsigned.to_uint_inj.
  assert (Hs : Some (Nat.to_uint n) = Some (Nat.to_uint m))
    by (rewrite <- !NilEmpty.usu; now rewrite H).
  now injection Hs.
Qed.

(** ** The health check *)

Section HealthProperties.
Import Health.
Variable store : list log_line.
Variable script : nat -> poll.

Lemma inner_health_run (p : poll) (h : handle) :
  _inner_health store p h =
  match get_result p with
  | inl st => (inl (status_is_live st), Handle (refreshed_at p), drain_events store h p)
  | inr e => (inr e, h, [Health.ContainersGet])
  end.
Proof.
  unfold _inner_health, drain_events, mbind, M_bind, bind, call, get_state,
    put_state, emit, ret.
  destruct (get_result p) as [st|e]; [|reflexivity].
  destruct (String.eqb _ ""); reflexivity.
Qed.

(** One iteration, executed symbolically. *)
Lemma health_body_run (i : nat) (h : handle) :
  health_body store script i h =
  match get_result (script i) with
  | inr e => (inr e, h, [Health.ContainersGet])
  | inl st =>
      let h' := Handle (refreshed_at (script i)) in
      let pre := drain_events store h (script i) in
      if status_is_live st then
        match reply (script i) with
        | inl _ => (inl (Some tt), h', pre ++ [Generate; LogInfo (started_msg i)])
        | inr e =>
            if is_transient e then (inl None, h', pre ++ [Generate; Sleep 1])
            else (inr (RuntimeError fatal_msg), h', pre ++ [Generate])
        end
      else (inr (RuntimeError (crashed_msg i)), h', pre)
  end.
Proof.
  unfold health_body, mbind, M_bind, bind. rewrite inner_health_run.
  destruct (get_result (script i)) as [st|e]; [|reflexivity].
  destruct (status_is_live st); simpl.
  - unfold try_except, bind, call, emit, ret, raise.
    destruct (reply (script i)) as [[]|e]; [reflexivity|].
    destruct e; simpl; rewrite ?app_nil_r; reflexivity.
  - unfold raise. rewrite app_nil_r. reflexivity.
Qed.

Lemma probe_steps_app (t1 t2 : list Health.event) :
  probe_steps (t1 ++ t2) = probe_steps t1 ++ probe_steps t2.
Proof. apply List.filter_app. Qed.

Lemma probe_steps_drain (h : handle) (p : poll) :
  probe_steps (drain_events store h p) = [Health.ContainersGet].
Proof.
  unfold drain_events. cbv zeta.
  destruct (String.eqb _ ""); reflexivity.
Qed.

Lemma elapsed_probe_steps (t : list Health.event) :
  elapsed (probe_steps t) = elapsed t.
Proof.
  induction t as [|e t IH]; [reflexivity|].
  destruct e; simpl; rewrite ?IH; reflexivity.
Qed.

Lemma elapsed_app (t1 t2 : list Health.event) :
  elapsed (t1 ++ t2) = elapsed t1 + elapsed t2.
Proof.
  induction t1 as [|e t1 IH]; [reflexivity|].
  destruct e; simpl; rewrite ?IH; lia.
Qed.

Lemma elapsed_retry_rounds (n : nat) : elapsed (retry_rounds n) = n.
Proof. induction n; simpl; congruence. Qed.


Lemma loop_outcome (n : nat) :
  forall i h r h' tr,
    for_each (seq i n) (health_body store script) h = (r, h', tr) ->
    loop_ends script i n r tr.
Proof.
  induction n as [|n IH]; intros i h r h' tr Hrun.
  - injection Hrun as <- <- <-. exists 0.
    split; [lia|]. split; [intros; lia|]. left. auto.
  - cbn [seq for_each] in Hrun. unfold bind in Hrun.
    rewrite health_body_run in Hrun.
    pose proof (probe_steps_drain h (script i)) as Hpre.
    set (pre := drain_events store h (script i)) in *. clearbody pre.
    destruct (get_result (script i)) as [st|e0] eqn:Hget.
    + cbv zeta in Hrun. destruct (status_is_live st) eqn:Hlive.
      * destruct (reply (script i)) as [[]|e1] eqn:Hreply.
        -- injection Hrun as <- <- <-. exists 0.
           split; [lia|]. split; [intros; lia|]. right. split; [lia|].
           exists [Health.ContainersGet; Generate].
           rewrite Nat.add_0_r, app_nil_r, probe_steps_app, Hpre.
           simpl. rewrite Hget, Hreply. eauto 10.
        -- destruct (is_transient e1) eqn:Htr.
           ++ destruct (for_each (seq (S i) n) (health_body store script)
                          {| _log_since := refreshed_at (script i) |})
                as [[r2 h2] t2] eqn:Hrest.
              assert (r = r2 /\ tr = (pre ++ [Generate; Sleep 1]) ++ t2)
                as [-> ->] by (destruct r2 as [[[]|]|]; now injection Hrun).
              clear Hrun.
              apply IH in Hrest. destruct Hrest as (m & Hm & Hwait & Hend).
              exists (S m). split; [lia|]. split.
              { intros j Hj. destruct (Nat.eq_dec j i) as [->|Hne].
                - unfold keeps_waiting. now rewrite Hget, Hreply, Hlive, Htr.
                - apply Hwait. lia. }
              rewrite !probe_steps_app, Hpre.
              destruct Hend as [(-> & -> & ->) | (Hlt & tail & Hends & ->)].
              ** left. auto.
              ** right. split; [lia|]. exists tail.
                 replace (i + S m) with (S i + m) by lia. auto.
           ++ injection Hrun as <- <- <-. exists 0.
              split; [lia|]. split; [intros; lia|]. right. split; [lia|].
              exists [Health.ContainersGet; Generate].
              rewrite Nat.add_0_r, probe_steps_app, Hpre.
              simpl. rewrite Hget, Hreply. split; [|reflexivity].
              right. right. exists st, e1. auto 10.
      * injection Hrun as <- <- <-. exists 0.
        split; [lia|]. split; [intros; lia|]. right. split; [lia|].
        exists [Health.ContainersGet].
        rewrite Nat.add_0_r, Hpre.
        simpl. rewrite Hget. split; [|reflexivity]. right. left. eauto.
    + injection Hrun as <- <- <-. exists 0.
      split; [lia|]. split; [intros; lia|]. right. split; [lia|].
      exists [Health.ContainersGet]. rewrite Nat.add_0_r.
      simpl. rewrite Hget. auto.
Qed.

(** [health] in terms of its loop. *)
Lemma health_run (T : Z) (h : handle) r h' tr :
  (0 < T)%Z ->
  for_each (range T) (health_body store script) h = (r, h', tr) ->
  health store script T h =
  (match r with
   | inl (Some _) => inl tt
   | inl None => inr (RuntimeError (timeout_msg (Z.to_nat T - 1)))
   | inr e => inr e
   end, h', tr).
Proof.
  intros HT Hloop. unfold health.
  destruct (Z.gtb_spec T 0) as [_|]; [|lia].
  unfold mbind, M_bind, bind. rewrite Hloop.
  destruct r as [[[]|]|e]; unfold ret, raise; rewrite ?app_nil_r; reflexivity.
Qed.

Lemma health_nonpositive (T : Z) (h : handle) :
  (T <= 0)%Z -> health store script T h = (inr AssertionError, h, []).
Proof.
  intros HT. unfold health.
  destruct (Z.gtb_spec T 0) as [|_]; [lia | reflexivity].
Qed.

Lemma elapsed_of_steps (tr : list Health.event) (m : nat) tail :
  probe_steps tr = retry_rounds m ++ tail -> elapsed tr = m + elapsed tail.
Proof.
  intros H. rewrite <- elapsed_probe_steps, H, elapsed_app, elapsed_retry_rounds.
  reflexivity.
Qed.

(** C10: a call of the health check with a timeout that is not strictly
    positive fails the assertion of line 48 with nothing done: no query of
    the container, no request, no sleep, and the handle unchanged. *)
Theorem health_asserts_positive_timeout (T : Z) (h : handle) :
  (T <= 0)%Z ->
  health store script T h = (inr AssertionError, h, []).
Proof. apply health_nonpositive. Qed.




(** *** Draining the container log *)

Lemma append_assoc (a b c : string) : (a +:+ b) +:+ c = a +:+ (b +:+ c).
Proof.
  induction a as [|x a IH]; [reflexivity|].
  change (String x ((a +:+ b) +:+ c) = String x (a +:+ b +:+ c)).
  now rewrite IH.
Qed.

Lemma stdout_app (t1 t2 : list Health.event) :
  stdout (t1 ++ t2) = stdout t1 +:+ stdout t2.
Proof.
  induction t1 as [|e t1 IH]; [reflexivity|].
  destruct e; simpl; rewrite IH; try reflexivity.
  symmetry. apply append_assoc.
Qed.

Lemma decode_app (l1 l2 : list log_line) :
  decode (l1 ++ l2) = decode l1 +:+ decode l2.
Proof.
  induction l1 as [|x l1 IH]; [reflexivity|].
  simpl. rewrite IH. symmetry. apply append_assoc.
Qed.

Lemma stdout_drain (h : handle) (p : poll) :
  stdout (drain_events store h p)
  = decode (logs store (_log_since h) (served_at p)).
Proof.
  unfold drain_events. cbv zeta.
  destruct (String.eqb_spec (decode (logs store (_log_since h) (served_at p))) "")
    as [->|_]; simpl; [reflexivity|].
  generalize (decode (logs store (_log_since h) (served_at p))).
  induction s as [|c s IH]; [reflexivity|].
  change (String c (s +:+ "") = String c s). now rewrite IH.
Qed.

(** The polls print, one after the other, what their windows hold. *)
Lemma poll_all_stdout (ps : list poll) :
  forall w,
    forallb found ps = true ->
    exists bs h' tr,
      poll_all store ps (Handle w) = (inl bs, h', tr)
      /\ stdout tr
         = decode (flat_map (fun win => logs store (fst win) (snd win))
                     (windows w ps)).
Proof.
  induction ps as [|p ps IH]; intros w Hfound.
  - exists [], (Handle w), []. split; reflexivity.
  - simpl in Hfound. apply andb_true_iff in Hfound as [Hp Hps].
    destruct (IH (refreshed_at p) Hps) as (bs & h' & tr & Hrun & Hout).
    cbn [poll_all]. unfold mbind, M_bind, bind.
    rewrite inner_health_run. unfold found in Hp.
    destruct (get_result p) as [st|e]; [|discriminate].
    rewrite Hrun. unfold mret, M_ret, ret.
    eexists _, _, _. split; [reflexivity|].
    rewrite app_nil_r, stdout_app, stdout_drain, Hout.
    cbn [windows flat_map fst snd _log_since]. now rewrite decode_app.
Qed.







End HealthProperties.

Lemma health_asserts_positive_timeout_witness :
  (0 <= 0)%Z
  /\ Health.health [] never_ready 0 (Health.Handle 0)
     = (inr AssertionError, Health.Handle 0, []).
Proof.
  split; [lia|].
  apply (health_asserts_positive_timeout [] never_ready 0 (Health.Handle 0)).
  lia.
Defined.







(** ** The container launcher *)

Section LauncherProperties.
Import Launcher.

(** *** Teardown *)

Lemma teardown_runs (w : world) (container : string) (image : option string) :
  exists tr,
    teardown w container image tt = (inl tt, tt, tr)
    /\ teardown_calls tr
       = [Stop Started (Some 60)]
         ++ (match stop w with
             | inl _ => [Wait Started (Some 60)]
             | inr _ => []
             end)
         ++ [Remove true]
         ++ (match image with
             | Some _ => [ImageRemove true]
             | None => []
             end).
Proof.
  unfold teardown, try_finally, try_except, mbind, M_bind, bind, call, emit,
    mret, M_ret, ret.
  destruct (stop w) as [[]|e1]; [destruct (wait w) as [[]|e2]|];
    (destruct (remove w) as [[]|e3];
     [|];
     (destruct image as [id|];
      [destruct (image_remove w) as [[]|e4]; [|destruct e4] |]));
    eexists; (split; [reflexivity|]); reflexivity.
Qed.

(** C6 (as amended): teardown never raises; it calls stop first, calls
    wait only when stop did not raise, then calls the removal of the
    container whatever stop and wait did, and then, when an image was
    built, the removal of that image whatever the removal of the container
    did; the calls it makes are always in that order. *)
Theorem teardown_is_best_effort (w : world) (container : string)
    (image : option string) :
  exists tr,
    teardown w container image tt = (inl tt, tt, tr)
    /\ teardown_calls tr
       = [Stop Started (Some 60)]
         ++ (match stop w with
             | inl _ => [Wait Started (Some 60)]
             | inr _ => []
             end)
         ++ [Remove true]
         ++ (match image with
             | Some _ => [ImageRemove true]
             | None => []
             end).
Proof. apply teardown_runs. Qed.

(** *** The generator and the with statement *)

Lemma cleanup_stale_quiet (w : world) (container : string) r t :
  cleanup_stale w container tt = (r, tt, t) -> teardown_calls t = [].
Proof.
  unfold cleanup_stale, try_except, mbind, M_bind, bind, call, mret, M_ret, ret.
  intros H.
  destruct (stale_get w) as [[]|e1].
  - destruct (stale_stop w) as [[]|e2].
    + destruct (stale_wait w) as [[]|e3]; [|destruct e3];
        injection H as <- <-; reflexivity.
    + destruct e2; injection H as <- <-; reflexivity.
  - destruct e1; injection H as <- <-; reflexivity.
Qed.

Lemma provision_quiet (D : string) (w : world) (container model : string) r t :
  provision D w container model tt = (r, tt, t) ->
  teardown_calls t = []
  /\ (isdir w model = false -> r = inl (D, None, model) /\ t = []).
Proof.
  unfold provision, try_finally, mbind, M_bind, bind, call, emit, mret, M_ret,
    ret.
  intros H.
  destruct (isdir w model).
  - split; [|discriminate].
    destruct (copytree w) as [[]|e1]; [destruct (build w) as [id|e2]|];
      injection H as <- <-; reflexivity.
  - injection H as <- <-. auto.
Qed.

(** [docker_launcher] executed up to its [yield]. *)
Lemma docker_launcher_run (D : string) (tok : option string) (w : world)
    (service model : string) (trust : bool) :
  docker_launcher D tok w service model trust tt =
  let container := make_container_name service (port w) in
  match cleanup_stale w container tt with
  | (inr e, _, t0) => (inr e, tt, t0)
  | (inl _, _, t0) =>
      match provision D w container model tt with
      | (inr e, _, t1) => (inr e, tt, t0 ++ t1)
      | (inl (tag, image, model_id), _, t1) =>
          let started :=
            ContainersRun tag (launch_args model_id trust) container
              (compose_env tok w) (port w) in
          match run w with
          | inr e => (inr e, tt, t0 ++ t1 ++ [started])
          | inl _ =>
              (inl (MkHandle service container
                      ("http://localhost:" +:+ str_of_nat (port w)),
                    fun r =>
                      match r with
                      | Next => teardown w container image
                      | Throw e => raise e
                      end),
               tt,
               t0 ++ t1
               ++ [started; Log Info ("Starting " +:+ container +:+ " container")])
          end
      end
  end.
Proof.
  unfold docker_launcher, mbind, M_bind, bind. cbv zeta.
  destruct (cleanup_stale w _ tt) as [[[[]|e0] []] t0]; [|reflexivity].
  destruct (provision D w _ model tt) as [[[[[tag image] model_id]|e1] []] t1];
    [|reflexivity].
  unfold call, emit, yield_, mret, M_ret, ret, launch_args.
  destruct (run w) as [[]|e2]; rewrite ?app_nil_r; reflexivity.
Qed.

(** What a successful start leaves behind: no teardown call so far, and a
    generator that tears down when resumed with [next] and lets the
    exception through when resumed with [throw]. *)
Lemma docker_launcher_started (D : string) (tok : option string) (w : world)
    (service model : string) (trust : bool) h rest t1 :
  docker_launcher D tok w service model trust tt = (inl (h, rest), tt, t1) ->
  teardown_calls t1 = []
  /\ exists tag image model_id,
       rest = (fun r =>
                 match r with
                 | Next =>
                     teardown w (make_container_name service (port w)) image
                 | Throw e => raise e
                 end)
       /\ In (ContainersRun tag (launch_args model_id trust)
                (make_container_name service (port w))
                (compose_env tok w) (port w)) t1
       /\ (isdir w model = false ->
           tag = D /\ image = None /\ model_id = model).
Proof.
  rewrite docker_launcher_run. cbv zeta. intros H.
  destruct (cleanup_stale w _ tt) as [[[[]|e0] []] t0] eqn:Hclean;
    [|discriminate].
  destruct (provision D w _ model tt) as [[[[[tag image] model_id]|e1] []] t1']
    eqn:Hprov; [|discriminate].
  destruct (run w) as [[]|e2]; [|discriminate].
  injection H as <- <- <-.
  apply cleanup_stale_quiet in Hclean.
  apply provision_quiet in Hprov as [Hquiet Hhub].
  split.
  - unfold teardown_calls in *.
    rewrite !List.filter_app, Hclean, Hquiet. reflexivity.
  - exists tag, image, model_id. split; [reflexivity|]. split.
    + apply in_or_app. right. apply in_or_app. right. left. reflexivity.
    + intros Hdir. destruct (Hhub Hdir) as [Heq _].
      injection Heq as -> -> ->. auto.
Qed.

(** The with statement once the generator has yielded. *)
Lemma with_run {Y} (cm : Gen Y) (body : Y -> M event unit unit) h rest t1 :
  cm tt = (inl (h, rest), tt, t1) ->
  with_ cm body tt =
  match body h tt with
  | (inl _, _, t2) =>
      match rest Next tt with (r, _, t3) => (r, tt, t1 ++ t2 ++ t3) end
  | (inr e, _, t2) =>
      match rest (Throw e) tt with (r, _, t3) => (r, tt, t1 ++ t2 ++ t3) end
  end.
Proof.
  intros Hcm. unfold with_, bind, attempt. rewrite Hcm.
  destruct (body h tt) as [[[[]|e] []] t2].
  - destruct (rest Next tt) as [[r []] t3]. reflexivity.
  - destruct (rest (Throw e) tt) as [[r []] t3]. reflexivity.
Qed.

(** After a normal exit of the body the teardown runs, once. *)
Lemma teardown_after_normal_exit (D : string) (tok : option string)
    (w : world) (service model : string) (trust : bool)
    (body : ContainerLauncherHandle -> M event unit unit) h rest t1 t2 :
  docker_launcher D tok w service model trust tt = (inl (h, rest), tt, t1) ->
  body h tt = (inl tt, tt, t2) ->
  exists t3,
    with_ (docker_launcher D tok w service model trust) body tt
    = (inl tt, tt, t1 ++ t2 ++ t3)
    /\ hd_error (teardown_calls t3) = Some (Stop Started (Some 60))
    /\ In (Remove true) t3.
Proof.
  intros Hstart Hbody.
  rewrite (with_run _ body h rest t1 Hstart), Hbody.
  apply docker_launcher_started in Hstart
    as (_ & tag & image & model_id & -> & _).
  destruct (teardown_runs w (make_container_name service (port w)) image)
    as (t3 & Hrun & Hcalls).
  rewrite Hrun. exists t3. split; [reflexivity|].
  split; [rewrite Hcalls; reflexivity|].
  assert (Hin : In (Remove true) (teardown_calls t3)).
  { rewrite Hcalls. apply in_or_app. right. apply in_or_app. right.
    left. reflexivity. }
  apply List.filter_In in Hin. tauto.
Qed.

(** C1, the code at the failing input: once the container was started, a
    body that raises ends the with statement with the exception of the
    body and the trace ends with the events of the body: no stop, no wait
    and no removal is called, neither before nor after. *)
Theorem teardown_skipped_when_body_raises (D : string) (tok : option string)
    (w : world) (service model : string) (trust : bool)
    (body : ContainerLauncherHandle -> M event unit unit) h rest t1 e t2 :
  docker_launcher D tok w service model trust tt = (inl (h, rest), tt, t1) ->
  body h tt = (inr e, tt, t2) ->
  with_ (docker_launcher D tok w service model trust) body tt
  = (inr e, tt, t1 ++ t2)
  /\ teardown_calls (t1 ++ t2) = teardown_calls t2.
Proof.
  intros Hstart Hbody.
  rewrite (with_run _ body h rest t1 Hstart), Hbody.
  apply docker_launcher_started in Hstart
    as (Hquiet & tag & image & model_id & -> & _).
  unfold raise. rewrite app_nil_r. split; [reflexivity|].
  unfold teardown_calls in *. now rewrite List.filter_app, Hquiet.
Qed.

(** *** The environment of the container *)

Lemma forward_lookup (environ env : gmap string string) (vars : list string)
    (k : string) :
  foldl (fun env var =>
           match environ !! var with
           | Some v => <[var := v]> env
           | None => env
           end) env vars !! k
  = if decide (k ∈ vars)
    then match environ !! k with Some v => Some v | None => env !! k end
    else env !! k.
Proof.
  revert env. induction vars as [|x vars IH]; intros env.
  - simpl. destruct (decide (k ∈ [])) as [Hin|_]; [|reflexivity].
    now apply elem_of_nil in Hin.
  - cbn [foldl]. rewrite IH.
    assert (Hstep :
      match environ !! x with Some v => <[x := v]> env | None => env end !! k
      = if decide (k = x)
        then match environ !! k with Some v => Some v | None => env !! k end
        else env !! k).
    { destruct (decide (k = x)) as [->|Hne].
      - destruct (environ !! x); [apply lookup_insert_eq | reflexivity].
      - destruct (environ !! x); [|reflexivity].
        apply lookup_insert_ne. congruence. }
    destruct (decide (k ∈ vars)) as [Hin|Hnin];
      destruct (decide (k ∈ x :: vars)) as [Hin'|Hnin'].
    + destruct (environ !! k) eqn:Hk; [reflexivity|].
      rewrite Hstep. destruct (decide (k = x)); reflexivity.
    + exfalso. apply Hnin'. apply elem_of_cons. now right.
    + rewrite Hstep. apply elem_of_cons in Hin' as [->|Hin']; [|contradiction].
      destruct (decide (x = x)); [reflexivity | congruence].
    + rewrite Hstep. destruct (decide (k = x)) as [->|_]; [|reflexivity].
      exfalso. apply Hnin'. apply elem_of_cons. now left.
Qed.

Lemma compose_env_lookup (tok : option string) (w : world) (k : string) :
  compose_env tok w !! k
  = if decide (k ∈ tuning_vars)
    then match os_environ w !! k with
         | Some v => Some v
         | None => base_env tok !! k
         end
    else base_env tok !! k.
Proof. unfold compose_env. apply forward_lookup. Qed.

Lemma base_env_tuning (tok : option string) (k : string) :
  k ∈ tuning_vars -> base_env tok !! k = None.
Proof.
  unfold tuning_vars. rewrite !elem_of_cons, elem_of_nil.
  intros [->|[->|[->|[->|[]]]]]; unfold base_env; destruct tok;
    rewrite ?lookup_insert_ne by discriminate; apply lookup_empty.
Qed.

Lemma base_env_other (tok : option string) (k : string) :
  k ∉ container_env_names -> base_env tok !! k = None.
Proof.
  unfold container_env_names. cbn [app].
  rewrite !not_elem_of_cons. intros (H1 & H2 & H3 & H4 & _).
  unfold base_env; destruct tok;
    rewrite ?lookup_insert_ne by congruence; apply lookup_empty.
Qed.

(** C7: the environment of the container always holds the log level and
    the cache repository; it holds the token under both of its names
    exactly when there is a token; under each of the four tuning names it
    holds what the process environment holds under that name, and nothing
    when the process environment has no such name; it holds no other
    name; and it depends on the process environment through the four
    tuning names only. *)
Theorem compose_env_policy (tok : option string) (w : world) :
  compose_env tok w !! "LOG_LEVEL" = Some "info,text_generation_router=debug"
  /\ compose_env tok w !! "CUSTOM_CACHE_REPO" = Some OPTIMUM_CACHE_REPO_ID
  /\ compose_env tok w !! "HUGGING_FACE_HUB_TOKEN" = tok
  /\ compose_env tok w !! "HF_TOKEN" = tok
  /\ (forall var, var ∈ tuning_vars ->
        compose_env tok w !! var = os_environ w !! var)
  /\ (forall k, k ∉ container_env_names -> compose_env tok w !! k = None)
  /\ (forall w',
        (forall var, var ∈ tuning_vars ->
           os_environ w' !! var = os_environ w !! var) ->
        compose_env tok w' = compose_env tok w).
Proof.
  assert (Hfixed : forall k, k ∉ tuning_vars ->
            compose_env tok w !! k = base_env tok !! k).
  { intros k Hk. rewrite compose_env_lookup.
    destruct (decide (k ∈ tuning_vars)); [contradiction | reflexivity]. }
  assert (Hnot : forall k, k ∈ ["LOG_LEVEL"; "CUSTOM_CACHE_REPO";
                                "HUGGING_FACE_HUB_TOKEN"; "HF_TOKEN"] ->
            k ∉ tuning_vars).
  { intros k. unfold tuning_vars. rewrite !elem_of_cons, !elem_of_nil.
    intros [->|[->|[->|[->|[]]]]] [H|[H|[H|[H|[]]]]]; discriminate H. }
  repeat split.
  - rewrite Hfixed by (apply Hnot; set_solver).
    unfold base_env; destruct tok;
      rewrite ?lookup_insert_ne by discriminate;
      rewrite lookup_insert_eq; reflexivity.
  - rewrite Hfixed by (apply Hnot; set_solver).
    unfold base_env; destruct tok;
      rewrite ?lookup_insert_ne by discriminate;
      rewrite lookup_insert_eq; reflexivity.
  - rewrite Hfixed by (apply Hnot; set_solver).
    unfold base_env; destruct tok.
    + rewrite lookup_insert_ne by discriminate. apply lookup_insert_eq.
    + rewrite !lookup_insert_ne by discriminate. apply lookup_empty.
  - rewrite Hfixed by (apply Hnot; set_solver).
    unfold base_env; destruct tok.
    + apply lookup_insert_eq.
    + rewrite !lookup_insert_ne by discriminate. apply lookup_empty.
  - intros var Hvar. rewrite compose_env_lookup.
    destruct (decide (var ∈ tuning_vars)); [|contradiction].
    rewrite (base_env_tuning tok var Hvar).
    now destruct (os_environ w !! var).
  - intros k Hk. rewrite Hfixed.
    + now apply base_env_other.
    + intros Hin. apply Hk. unfold container_env_names.
      apply elem_of_app. now right.
  - intros w' Hagree. apply map_eq. intros k.
    rewrite !compose_env_lookup.
    destruct (decide (k ∈ tuning_vars)) as [Hin|_]; [|reflexivity].
    now rewrite (Hagree k Hin).
Qed.

(** *** The image to run *)

Lemma derived_tag_inj (s s' : string) (p p' : nat) :
  derived_tag (make_container_name s p)
  = derived_tag (make_container_name s' p') ->
  s = s' /\ p = p'.
Proof.
  unfold derived_tag, make_container_name, str_of_nat. intros H.
  apply (f_equal list_ascii_of_string) in H.
  rewrite !list_ascii_app in H.
  apply app_inv_tail, app_inv_head in H.
  change (list_ascii_of_string "-") with ["-"%char] in H.
  apply split_at_last_separator in H; try apply digits_have_no_dash.
  destruct H as [Hs Hp].
  apply list_ascii_inj in Hs, Hp. split; [exact Hs|].
  now apply str_of_nat_inj.
Qed.

(** C8: for a model reference that is a directory, once the model was
    copied and the image built, the image to run is the built one, under
    a tag that holds the service name and the port and that no other pair
    of service name and port gives; for any other reference no image is
    built, the image to run is the base image, the model argument of the
    container is the reference itself, and the teardown has no image to
    remove. *)
Theorem provision_by_reference (D : string) (w : world)
    (service model : string) :
  let container := make_container_name service (port w) in
  (isdir w model = true -> copytree w = inl tt ->
   forall id, build w = inl id ->
     exists tr,
       provision D w container model tt
       = (inl (derived_tag container, Some id, "/data/" +:+ model), tt, tr)
       /\ In (ImagesBuild (derived_tag container)) tr
       /\ contains (derived_tag container) service = true
       /\ contains (derived_tag container) (str_of_nat (port w)) = true
       /\ (forall service' port',
             derived_tag (make_container_name service' port')
             = derived_tag container ->
             service' = service /\ port' = port w))
  /\ (isdir w model = false ->
      provision D w container model tt = (inl (D, None, model), tt, [])
      /\ (forall tok trust h rest t,
            docker_launcher D tok w service model trust tt
            = (inl (h, rest), tt, t) ->
            In (ContainersRun D (launch_args model trust) container
                  (compose_env tok w) (port w)) t
            /\ (forall tag, ~ In (ImagesBuild tag) t)
            /\ rest Next = teardown w container None)).
Proof.
  cbv zeta. split.
  - intros Hdir Hcopy id Hbuild.
    unfold provision, try_finally, mbind, M_bind, bind, call, emit, mret,
      M_ret, ret.
    rewrite Hdir, Hcopy, Hbuild. eexists. split; [reflexivity|].
    split; [simpl; tauto|].
    split; [|split].
    + unfold derived_tag, make_container_name.
      rewrite !append_assoc. apply contains_infix.
    + unfold derived_tag, make_container_name.
      rewrite !append_assoc.
      rewrite <- (append_assoc service "-").
      rewrite <- (append_assoc "tgi-tests-" (service +:+ "-")).
      apply contains_infix.
    + intros service' port'. apply derived_tag_inj.
  - intros Hdir.
    assert (Hprov : provision D w (make_container_name service (port w))
                      model tt = (inl (D, None, model), tt, [])).
    { unfold provision. rewrite Hdir. reflexivity. }
    split; [exact Hprov|].
    intros tok trust h rest t Hstart.
    pose proof Hstart as Hrun. rewrite docker_launcher_run in Hrun.
    cbv zeta in Hrun. rewrite Hprov in Hrun.
    destruct (cleanup_stale w _ tt) as [[[[]|e0] []] t0] eqn:Hclean;
      [|discriminate].
    destruct (run w) as [[]|e2]; [|discriminate].
    injection Hrun as <- <- <-.
    split; [|split].
    + apply in_or_app. right. left. reflexivity.
    + intros tag Hin. apply in_app_or in Hin as [Hin|Hin].
      * revert Hclean Hin.
        unfold cleanup_stale, try_except, mbind, M_bind, bind, call, mret,
          M_ret, ret.
        destruct (stale_get w) as [[]|e1];
          [destruct (stale_stop w) as [[]|e3];
           [destruct (stale_wait w) as [[]|e4]; [|destruct e4]
           |destruct e3]
          |destruct e1];
          intros Hc; (try discriminate Hc); injection Hc as <-; simpl;
          intuition discriminate.
      * simpl in Hin. intuition discriminate.
    + reflexivity.
Qed.

End LauncherProperties.

(** ** The load generator *)

Section LoadProperties.
Import Load.
Variable Response : Type.
Variable client : nat -> fate Response.

Lemma first_failure_none (fs : list (fate Response)) :
  first_failure Response fs = None ->
  map inl (successes Response fs) = map (outcome Response) fs.
Proof.
  induction fs as [|f fs IH]; [reflexivity|].
  cbn [first_failure successes map].
  destruct (outcome Response f) as [r|e].
  - intros H. cbn [map]. now rewrite (IH H).
  - destruct (first_failure Response fs) as [[t e']|]; [|discriminate].
    destruct (finished_at Response f <=? t)%nat; discriminate.
Qed.

Lemma first_failure_some (fs : list (fate Response)) t e :
  first_failure Response fs = Some (t, e) ->
  exists f, In f fs /\ outcome Response f = inr e
            /\ finished_at Response f = t
            /\ (forall g e', In g fs -> outcome Response g = inr e' ->
                  finished_at Response f <= finished_at Response g).
Proof.
  revert t e. induction fs as [|f fs IH]; intros t e; [discriminate|].
  cbn [first_failure].
  destruct (outcome Response f) as [r|e0] eqn:Hf.
  - intros H. destruct (IH _ _ H) as (f' & Hin & Hout & Ht & Hmin).
    exists f'. split; [now right|]. split; [exact Hout|]. split; [exact Ht|].
    intros g e' [<-|Hg] Hge; [congruence|]. eauto.
  - destruct (first_failure Response fs) as [[t' e']|] eqn:Hrest.
    + destruct (IH _ _ eq_refl) as (f' & Hin & Hout & Ht & Hmin).
      destruct (Nat.leb_spec (finished_at Response f) t') as [Hle|Hgt].
      * intros H. injection H as <- <-.
        exists f. split; [now left|]. split; [exact Hf|].
        split; [reflexivity|].
        intros g e'' [<-|Hg] Hge; [lia|].
        specialize (Hmin g e'' Hg Hge). lia.
      * intros H. injection H as <- <-.
        exists f'. split; [now right|]. split; [exact Hout|].
        split; [exact Ht|].
        intros g e'' [<-|Hg] Hge; [lia|]. eauto.
    + intros H. injection H as <- <-.
      exists f. split; [now left|]. split; [exact Hf|].
      split; [reflexivity|].
      intros g e'' [<-|Hg] Hge; [lia|].
      exfalso. clear IH. induction fs as [|x fs IHfs]; [destruct Hg|].
      cbn [first_failure] in Hrest.
      destruct Hg as [<-|Hg].
      * rewrite Hge in Hrest.
        destruct (first_failure Response fs) as [[? ?]|];
          [destruct (_ <=? _)%nat|]; discriminate.
      * destruct (outcome Response x).
        -- auto.
        -- destruct (first_failure Response fs) as [[? ?]|];
             [destruct (_ <=? _)%nat|]; discriminate.
Qed.

Lemma first_failure_all_succeed (fs : list (fate Response)) :
  (forall f, In f fs -> exists r, outcome Response f = inl r) ->
  first_failure Response fs = None.
Proof.
  intros Hall.
  destruct (first_failure Response fs) as [[t e]|] eqn:H; [|reflexivity].
  apply first_failure_some in H as (f & Hin & Hout & _).
  destruct (Hall f Hin) as [r Hr]. congruence.
Qed.

Lemma first_failure_one_fails (fs : list (fate Response)) :
  (exists f e, In f fs /\ outcome Response f = inr e) ->
  exists t e, first_failure Response fs = Some (t, e).
Proof.
  intros (f & e & Hin & Hout).
  destruct (first_failure Response fs) as [[t e']|] eqn:H; [eauto|].
  apply first_failure_none in H.
  apply (in_map (outcome Response)) in Hin. rewrite <- H, Hout in Hin.
  apply in_map_iff in Hin as (r & Hr & _). discriminate.
Qed.

(** [generate_load_inner]: the requests are all made, then gathered. *)
Lemma generate_load_run (prompt : string) (max_new_tokens n : Z) :
  generate_load_inner Response client prompt max_new_tokens n tt =
  (match first_failure Response (map client (range n)) with
   | Some (_, e) => inr e
   | None => inl (successes Response (map client (range n)))
   end, tt,
   map (fun _ => GenerateCall prompt max_new_tokens true) (range n)).
Proof.
  unfold generate_load_inner.
  generalize (range n). intros l.
  assert (Hmk : comprehension Response client prompt max_new_tokens l tt
                = (inl (map client l), tt,
                   map (fun _ => GenerateCall prompt max_new_tokens true) l)).
  { induction l as [|i l IH]; [reflexivity|].
    cbn [comprehension map]. unfold mbind, M_bind, bind, emit in *.
    rewrite IH. unfold mret, M_ret, ret. rewrite app_nil_r. reflexivity. }
  unfold mbind, M_bind, bind. rewrite Hmk. unfold gather.
  destruct (first_failure Response (map client l)) as [[t e]|];
    unfold raise, mret, M_ret, ret; rewrite app_nil_r; reflexivity.
Qed.

(** C2 (as amended): running the load with [n] requests sends the [n]
    requests; when all of them succeed it returns their [n] responses in
    the order of submission; when some of them fail it returns no result
    and raises the exception of the failed request that finished first. *)
Theorem generate_load_all_or_first_failure (prompt : string)
    (max_new_tokens n : Z) :
  exists r tr,
    generate_load_inner Response client prompt max_new_tokens n tt
    = (r, tt, tr)
    /\ length tr = Z.to_nat n
    /\ ((forall i, i < Z.to_nat n ->
           exists a, outcome Response (client i) = inl a) ->
        exists rs,
          r = inl rs
          /\ length rs = Z.to_nat n
          /\ map inl rs = map (fun i => outcome Response (client i)) (range n))
    /\ ((exists i e, i < Z.to_nat n /\ outcome Response (client i) = inr e) ->
        exists i e,
          i < Z.to_nat n
          /\ outcome Response (client i) = inr e
          /\ r = inr e
          /\ (forall j e', j < Z.to_nat n ->
                outcome Response (client j) = inr e' ->
                finished_at Response (client i)
                <= finished_at Response (client j))).
Proof.
  rewrite generate_load_run. eexists _, _. split; [reflexivity|].
  split; [unfold range; now rewrite length_map, length_seq|].
  assert (Hin : forall f, In f (map client (range n)) <->
                  exists i, i < Z.to_nat n /\ f = client i).
  { intros f. unfold range. rewrite in_map_iff. split.
    - intros (i & <- & Hi). apply in_seq in Hi. exists i. split; [lia|auto].
    - intros (i & Hi & ->). exists i. split; [auto|]. apply in_seq. lia. }
  split.
  - intros Hall.
    rewrite first_failure_all_succeed.
    2:{ intros f Hf. apply Hin in Hf as (i & Hi & ->). auto. }
    eexists. split; [reflexivity|].
    pose proof (first_failure_none (map client (range n))
                  (first_failure_all_succeed _ ltac:(
                     intros f Hf; apply Hin in Hf as (i & Hi & ->); auto)))
      as Haligned.
    split.
    + apply (f_equal (@length _)) in Haligned.
      rewrite !length_map in Haligned. rewrite Haligned.
      unfold range. apply length_seq.
    + rewrite Haligned. apply map_map.
  - intros (i & e & Hi & Hout).
    destruct (first_failure_one_fails (map client (range n)))
      as (t & e' & Hfirst).
    { exists (client i), e. split; [|exact Hout]. apply Hin. eauto. }
    rewrite Hfirst.
    apply first_failure_some in Hfirst as (f & Hf & Hfout & _ & Hmin).
    apply Hin in Hf as (k & Hk & ->).
    exists k, e'. split; [exact Hk|]. split; [exact Hfout|].
    split; [reflexivity|].
    intros j e'' Hj Hjout. apply (Hmin (client j) e''); [|exact Hjout].
    apply Hin. eauto.
Qed.

End LoadProperties.

(** ** The statements at concrete inputs *)

Lemma teardown_skipped_when_body_raises_witness :
  exists t,
    Launcher.with_
      (Launcher.docker_launcher "neuronx-tgi:latest" None calm_world
         "gpt2" "gpt2" false)
      failing_body tt
    = (inr (RuntimeError (Health.crashed_msg 0)), tt, t)
    /\ In (Launcher.ContainersRun "neuronx-tgi:latest"
             ["--model-id"; "gpt2"; "--env"] "tgi-tests-gpt2-8123"
             (Launcher.compose_env None calm_world) 8123) t
    /\ teardown_calls t = [].
Proof.
  destruct (teardown_skipped_when_body_raises "neuronx-tgi:latest" None
              calm_world "gpt2" "gpt2" false failing_body
              _ _ _ _ _ eq_refl eq_refl) as [Hrun Hcalls].
  eexists. split; [exact Hrun|]. split.
  - right. left. reflexivity.
  - rewrite Hcalls. reflexivity.
Defined.

(** C6, counterexample: when stopping the container raises, the teardown
    goes on to the removal of the container without calling wait. *)
Lemma wait_skipped_when_stop_fails :
  exists tr,
    Launcher.teardown stop_fails_world "tgi-tests-gpt2-8123" None tt
    = (inl tt, tt, tr)
    /\ teardown_calls tr
       = [Launcher.Stop Launcher.Started (Some 60); Launcher.Remove true]
    /\ ~ In (Launcher.Wait Launcher.Started (Some 60)) tr.
Proof.
  eexists. split; [reflexivity|]. split; [reflexivity|].
  simpl. intuition discriminate.
Defined.

Lemma provision_by_reference_witness :
  (exists tr,
      Launcher.provision "neuronx-tgi:latest" calm_world
        (Launcher.make_container_name "gpt2" 8123) "/tmp/model" tt
      = (inl ("tgi-tests-gpt2-8123-img", Some "sha256:1", "/data//tmp/model"),
         tt, tr))
  /\ Launcher.provision "neuronx-tgi:latest" calm_world
       (Launcher.make_container_name "gpt2" 8123) "gpt2" tt
     = (inl ("neuronx-tgi:latest", None, "gpt2"), tt, []).
Proof.
  split.
  - destruct (proj1 (provision_by_reference "neuronx-tgi:latest" calm_world
                       "gpt2" "/tmp/model")
                eq_refl eq_refl "sha256:1" eq_refl) as (tr & H & _).
    exists tr. exact H.
  - exact (proj1 (proj2 (provision_by_reference "neuronx-tgi:latest"
                           calm_world "gpt2" "gpt2") eq_refl)).
Defined.

Lemma generate_load_all_or_first_failure_witness :
  exists rs tr,
    Load.generate_load_inner string all_answer
      "It was a bright cold day in April" 20 4 tt
    = (inl rs, tt, tr)
    /\ length rs = 4.
Proof.
  destruct (generate_load_all_or_first_failure string all_answer
              "It was a bright cold day in April" 20 4)
    as (r & tr & Hrun & _ & Hok & _).
  destruct Hok as (rs & -> & Hlen & _).
  - intros i _. eexists. reflexivity.
  - exists rs, tr. split; [exact Hrun | exact Hlen].
Defined.

(** C2, counterexample: of four requests the second fails and the three
    others succeed; the load generator returns no list of outcomes, it
    raises the exception of the failed request. *)
Lemma load_raises_when_one_request_fails :
  Load.generate_load_inner string second_fails
    "It was a bright cold day in April" 20 4 tt
  = (inr (OtherException "overloaded"), tt,
     [Load.GenerateCall "It was a bright cold day in April" 20 true;
      Load.GenerateCall "It was a bright cold day in April" 20 true;
      Load.GenerateCall "It was a bright cold day in April" 20 true;
      Load.GenerateCall "It was a bright cold day in April" 20 true])
  /\ (forall i, i < 4 -> i <> 1 ->
        exists a, Load.outcome string (second_fails i) = inl a)
  /\ (forall outcomes : list string,
        fst (fst (Load.generate_load_inner string second_fails
                    "It was a bright cold day in April" 20 4 tt))
        <> inl outcomes).
Proof.
  split; [reflexivity|]. split.
  - intros i Hi Hne. destruct i as [|[|[|[|i]]]]; try lia; eexists; reflexivity.
  - intros outcomes. discriminate.
Defined.

(** * Further properties of the fixtures *)

(** ** The health check: the other ways the loop ends *)

Section HealthCompletions.
Import Health.
Variable store : list log_line.
Variable script : nat -> poll.







(** X4: The health check reports a service as ready only on an answer: when
    it returns normally the timeout is positive and some iteration
    [k < T], reached after [k] waiting iterations and [k] seconds of
    sleep, found the container live and had its request answered. *)
Theorem health_ready_only_after_answer (T : Z) (h h' : handle)
    (tr : list Health.event) :
  health store script T h = (inl tt, h', tr) ->
  (0 < T)%Z
  /\ exists k st,
       k < Z.to_nat T
       /\ (forall j, j < k -> keeps_waiting (script j) = true)
       /\ get_result (script k) = inl st
       /\ status_is_live st = true
       /\ reply (script k) = inl tt
       /\ elapsed tr = k.
Proof.
  intros Hrun.
  destruct (Z.le_gt_cases T 0) as [HT|HT].
  { rewrite health_nonpositive in Hrun by exact HT. discriminate. }
  split; [lia|].
  destruct (for_each (range T) (health_body store script) h)
    as [[r0 h0] tr0] eqn:Hloop.
  rewrite (health_run store script T h r0 h0 tr0 HT Hloop) in Hrun.
  apply loop_outcome in Hloop.
  destruct Hloop as (m & Hm & Hwait
                     & [(-> & _ & _) | (Hlt & tail & Hends & Hs)]);
    [discriminate|].
  destruct r0 as [[[]|]|e1]; try discriminate Hrun.
  injection Hrun as <- <-. simpl in Hends.
  destruct Hends as ((st & Hget & Hlive) & Hreply & ->).
  exists m, st. split; [exact Hlt|].
  split; [intros j Hj; apply Hwait; simpl; lia|].
  repeat split; auto.
  rewrite (elapsed_of_steps tr0 m _ Hs). simpl. lia.
Qed.

End HealthCompletions.

(** ** What the polls print *)

Section HealthOutput.
Import Health.
Variable store : list log_line.
Variable script : nat -> poll.

Lemma drain_prints_text (h : handle) (p : poll) :
  forallb (fun e => negb (is_empty_print e)) (drain_events store h p) = true.
Proof.
  unfold drain_events. cbv zeta.
  destruct (String.eqb (decode (logs store (_log_since h) (served_at p))) "")
    eqn:Hout; simpl; [reflexivity|].
  now rewrite Hout.
Qed.

Lemma body_prints_text (i : nat) (h : handle) :
  forallb (fun e => negb (is_empty_print e))
    (snd (health_body store script i h)) = true.
Proof.
  rewrite health_body_run.
  pose proof (drain_prints_text h (script i)) as Hpre.
  set (pre := drain_events store h (script i)) in *. clearbody pre.
  destruct (get_result (script i)) as [st|e]; [|reflexivity].
  cbv zeta. destruct (status_is_live st); [|exact Hpre].
  destruct (reply (script i)) as [|e]; [|destruct (is_transient e)];
    simpl; rewrite forallb_app, Hpre; reflexivity.
Qed.

Lemma loop_prints_text (l : list nat) :
  forall h,
    forallb (fun e => negb (is_empty_print e))
      (snd (for_each l (health_body store script) h)) = true.
Proof.
  induction l as [|i l IH]; intros h; [reflexivity|].
  cbn [for_each]. unfold bind.
  pose proof (body_prints_text i h) as Hbody.
  destruct (health_body store script i h) as [[[[v|]|e] h1] t1];
    simpl in Hbody |- *.
  - now rewrite app_nil_r.
  - specialize (IH h1).
    destruct (for_each l (health_body store script) h1) as [[r h2] t2].
    simpl in IH |- *. now rewrite forallb_app, Hbody, IH.
  - exact Hbody.
Qed.

(** X5: The health check never prints an empty string: whatever the
    container wrote and however the check ends, each [print] it makes
    carries some container output. *)
Theorem health_never_prints_nothing (T : Z) (h : handle) (out : string) :
  In (Print out) (snd (health store script T h)) -> out <> "".
Proof.
  intros Hin.
  assert (Hall : forallb (fun e => negb (is_empty_print e))
                   (snd (health store script T h)) = true).
  { unfold health. destruct (T >? 0)%Z; [|reflexivity].
    unfold mbind, M_bind, bind.
    pose proof (loop_prints_text (range T) h) as Hloop.
    destruct (for_each (range T) (health_body store script) h)
      as [[[[v|]|e] h1] t1]; simpl in Hloop |- *;
      rewrite ?app_nil_r; exact Hloop. }
  rewrite forallb_forall in Hall. specialize (Hall _ Hin).
  simpl in Hall. intros ->. discriminate.
Qed.

Lemma windows_start_late (ps : list poll) :
  forall w win,
    clock_advances w ps -> In win (windows w ps) -> (w <= fst win)%Z.
Proof.
  induction ps as [|p ps IH]; intros w win Hclock Hin; [destruct Hin|].
  destruct Hclock as (Hw & Hlt & Hclock).
  destruct Hin as [<-|Hin]; [simpl; lia|].
  specialize (IH _ _ Hclock Hin). lia.
Qed.

(** X6: What the container wrote before the watermark the handle started
    with is never printed: when every line of the store is older than the
    first watermark and the clock does not go back, the polls print
    nothing. *)
Theorem old_lines_are_never_printed (w : Z) (ps : list poll) :
  clock_advances w ps ->
  forallb found ps = true ->
  (forall l, In l store -> (stamp l < w)%Z) ->
  exists bs h' tr,
    poll_all store ps (Handle w) = (inl bs, h', tr)
    /\ stdout tr = ""
    /\ length bs = length ps.
Proof.
  intros Hclock Hfound Hold.
  destruct (poll_all_stdout store ps w Hfound) as (bs & h' & tr & Hrun & Hout).
  exists bs, h', tr. split; [exact Hrun|]. split.
  - rewrite Hout.
    assert (Hnone : forall wins,
              (forall win, In win wins -> (w <= fst win)%Z) ->
              flat_map (fun win => logs store (fst win) (snd win)) wins = []).
    { induction wins as [|win wins IHw]; intros Hw; [reflexivity|].
      cbn [flat_map]. rewrite IHw by (intros; apply Hw; now right).
      rewrite app_nil_r. unfold logs.
      specialize (Hw win (or_introl eq_refl)).
      clear -Hold Hw. induction store as [|l ls IHl]; [reflexivity|].
      cbn [List.filter].
      assert (Hl : (stamp l < w)%Z) by (apply Hold; now left).
      destruct (Z.leb_spec (fst win) (stamp l)); [lia|].
      simpl. apply IHl. intros x Hx. apply Hold. now right. }
    rewrite Hnone; [reflexivity|].
    intros win Hin. now apply (windows_start_late ps).
  - clear Hout Hold Hclock. revert w bs h' tr Hrun.
    induction ps as [|p ps IH]; intros w bs h' tr Hrun.
    + injection Hrun as <- _ _. reflexivity.
    + simpl in Hfound. apply andb_true_iff in Hfound as [Hp Hps].
      cbn [poll_all] in Hrun. unfold mbind, M_bind, bind in Hrun.
      rewrite inner_health_run in Hrun. unfold found in Hp.
      destruct (get_result p) as [st|]; [|discriminate].
      destruct (poll_all store ps (Handle (refreshed_at p)))
        as [[[bs'|e] h1] t1] eqn:Hrest; [|discriminate].
      unfold mret, M_ret, ret in Hrun. injection Hrun as <- _ _.
      simpl. f_equal. exact (IH Hps _ _ _ _ Hrest).
Qed.

End HealthOutput.

(** ** The launcher: failed starts, the build context and the logs *)

Section LauncherCompletions.
Import Launcher.

(** The calls on a container left by an earlier run, executed. *)
Lemma cleanup_stale_run (w : world) (container : string) :
  cleanup_stale w container tt =
  (match stale_outcome w with
   | inr NotFound => inl tt
   | r => r
   end, tt,
   ContainersGet container
   :: match stale_get w with
      | inl _ =>
          Stop Stale None
          :: match stale_stop w with
             | inl _ => [Wait Stale None]
             | inr _ => []
             end
      | inr _ => []
      end).
Proof.
  unfold cleanup_stale, stale_outcome, try_except, mbind, M_bind, bind, call,
    mret, M_ret, ret.
  destruct (stale_get w) as [[]|e1]; [|destruct e1; reflexivity].
  destruct (stale_stop w) as [[]|e2]; [|destruct e2; reflexivity].
  destruct (stale_wait w) as [[]|e3]; [|destruct e3]; reflexivity.
Qed.

(** Nothing the launcher does before its [yield] is a call of the
    teardown, however the start ends. *)
Lemma launcher_start_quiet (D : string) (tok : option string) (w : world)
    (service model : string) (trust : bool) r t :
  docker_launcher D tok w service model trust tt = (r, tt, t) ->
  teardown_calls t = [].
Proof.
  rewrite docker_launcher_run. cbv zeta. intros H.
  destruct (cleanup_stale w _ tt) as [[[[]|e0] []] t0] eqn:Hclean.
  - apply cleanup_stale_quiet in Hclean.
    destruct (provision D w _ model tt)
      as [[[[[tag image] model_id]|e1] []] t1] eqn:Hprov;
      apply provision_quiet in Hprov as [Hquiet _].
    + destruct (run w) as [[]|e2]; injection H as <- <-;
        unfold teardown_calls in *;
        rewrite !List.filter_app, Hclean, Hquiet; reflexivity.
    + injection H as <- <-. unfold teardown_calls in *.
      rewrite List.filter_app, Hclean, Hquiet. reflexivity.
  - injection H as <- <-. now apply cleanup_stale_quiet in Hclean.
Qed.

(** X7: A start that fails is not followed by the body nor by a teardown:
    when the launcher raises before its [yield], the with statement
    raises the same exception with the same trace whatever its body is,
    and no stop, wait or removal has been called. *)
Theorem failed_start_runs_no_body_no_teardown (D : string)
    (tok : option string) (w : world) (service model : string)
    (trust : bool) (e : exn) (t : list event)
    (body : ContainerLauncherHandle -> M event unit unit) :
  docker_launcher D tok w service model trust tt = (inr e, tt, t) ->
  with_ (docker_launcher D tok w service model trust) body tt = (inr e, tt, t)
  /\ teardown_calls t = [].
Proof.
  intros Hstart. split.
  - unfold with_, bind. now rewrite Hstart.
  - exact (launcher_start_quiet _ _ _ _ _ _ _ _ Hstart).
Qed.

(** X8: An error on the container of an earlier run, other than [NotFound],
    ends the launcher before anything is built or run. *)
Theorem stale_error_aborts_launch (D : string) (tok : option string)
    (w : world) (service model : string) (trust : bool) (e : exn) :
  stale_outcome w = inr e ->
  e <> NotFound ->
  exists t,
    docker_launcher D tok w service model trust tt = (inr e, tt, t)
    /\ launch_steps t = [].
Proof.
  intros Hstale Hne. rewrite docker_launcher_run. cbv zeta.
  rewrite cleanup_stale_run, Hstale.
  destruct e; try contradiction; eexists; (split; [reflexivity|]);
    (destruct (stale_get w) as [[]|];
     [destruct (stale_stop w) as [[]|]|]; reflexivity).
Qed.

(** X9: A container that starts has the cleanup of the earlier run behind
    it: the trace begins with the lookup under the container's name,
    followed by the stop and the wait of the stale container when there
    is one, and the cleanup either went through or ended on [NotFound]. *)
Theorem started_after_stale_cleanup (D : string) (tok : option string)
    (w : world) (service model : string) (trust : bool) h rest t :
  docker_launcher D tok w service model trust tt = (inl (h, rest), tt, t) ->
  (stale_outcome w = inl tt \/ stale_outcome w = inr NotFound)
  /\ exists t',
       t = ContainersGet (make_container_name service (port w))
           :: match stale_get w with
              | inl _ =>
                  Stop Stale None
                  :: match stale_stop w with
                     | inl _ => [Wait Stale None]
                     | inr _ => []
                     end
              | inr _ => []
              end
           ++ t'.
Proof.
  rewrite docker_launcher_run. cbv zeta. rewrite cleanup_stale_run.
  intros H. split.
  - destruct (stale_outcome w) as [[]|e]; [now left|].
    destruct e; try discriminate H. now right.
  - destruct (match stale_outcome w with
              | inr NotFound => inl tt
              | r => r
              end) as [[]|e]; [|discriminate].
    destruct (provision D w _ model tt)
      as [[[[[tag image] model_id]|e1] []] t1]; [|discriminate].
    destruct (run w) as [[]|e2]; [|discriminate].
    injection H as _ _ <-. eexists. reflexivity.
Qed.

(** X10: The build context of a derived image: for a model directory the
    temporary directory is created and removed exactly once whatever the
    copy and the build do, the build is not attempted when the copy
    fails, and an error of the copy or of the build leaves [provision]
    as it is. *)
Theorem provision_cleans_build_context (D : string) (w : world)
    (container model : string) :
  isdir w model = true ->
  exists t,
    provision D w container model tt
    = (match copytree w with
       | inr e => inr e
       | inl _ =>
           match build w with
           | inr e => inr e
           | inl id =>
               inl (derived_tag container, Some id, "/data/" +:+ model)
           end
       end, tt, t)
    /\ build_context_steps t
       = [TempDirCreate; CopyTree model]
         ++ match copytree w with
            | inl _ =>
                [WriteDockerfile D ("/data/" +:+ model);
                 ImagesBuild (derived_tag container)]
            | inr _ => []
            end
         ++ [TempDirCleanup].
Proof.
  intros Hdir.
  unfold provision, try_finally, mbind, M_bind, bind, call, emit, mret,
    M_ret, ret.
  rewrite Hdir.
  destruct (copytree w) as [[]|e1]; [destruct (build w) as [id|e2]|];
    eexists; split; reflexivity.
Qed.

(** X11: When running the container fails after a derived image was built,
    the image stays: the launcher raises the error of the run, the body
    of the with statement is not entered, and no removal of the image or
    of a container is called. *)
Theorem run_failure_leaves_built_image (D : string) (tok : option string)
    (w : world) (service model : string) (trust : bool) (id : string)
    (e : exn) (body : ContainerLauncherHandle -> M event unit unit) :
  (stale_outcome w = inl tt \/ stale_outcome w = inr NotFound) ->
  isdir w model = true ->
  copytree w = inl tt ->
  build w = inl id ->
  run w = inr e ->
  exists t,
    with_ (docker_launcher D tok w service model trust) body tt
    = (inr e, tt, t)
    /\ In (ImagesBuild (derived_tag (make_container_name service (port w)))) t
    /\ teardown_calls t = []
    /\ (forall force, ~ In (ImageRemove force) t).
Proof.
  intros Hstale Hdir Hcopy Hbuild Hrun.
  destruct (provision_cleans_build_context D w
              (make_container_name service (port w)) model Hdir)
    as (t1 & Hprov & Hsteps).
  rewrite Hcopy, Hbuild in Hprov. rewrite Hcopy in Hsteps.
  assert (Hstart : exists t0,
            docker_launcher D tok w service model trust tt
            = (inr e, tt, t0 ++ t1 ++
                 [ContainersRun
                    (derived_tag (make_container_name service (port w)))
                    (launch_args ("/data/" +:+ model) trust)
                    (make_container_name service (port w))
                    (compose_env tok w) (port w)])).
  { rewrite docker_launcher_run. cbv zeta.
    rewrite cleanup_stale_run, Hprov, Hrun.
    destruct Hstale as [-> | ->]; eexists; reflexivity. }
  destruct Hstart as (t0 & Hstart).
  pose proof (launcher_start_quiet _ _ _ _ _ _ _ _ Hstart) as Hquiet.
  eexists. split; [|split; [|split; [exact Hquiet|]]].
  - unfold with_, bind. now rewrite Hstart.
  - apply in_or_app. right. apply in_or_app. left.
    assert (Hin : In (ImagesBuild
                        (derived_tag (make_container_name service (port w))))
                    (build_context_steps t1)).
    { rewrite Hsteps. simpl. tauto. }
    apply List.filter_In in Hin. tauto.
  - intros force Hin.
    assert (Hcall : In (ImageRemove force)
                      (teardown_calls
                         (t0 ++ t1 ++
                          [ContainersRun
                             (derived_tag
                                (make_container_name service (port w)))
                             (launch_args ("/data/" +:+ model) trust)
                             (make_container_name service (port w))
                             (compose_env tok w) (port w)])))
      by (apply List.filter_In; split; [exact Hin | reflexivity]).
    rewrite Hquiet in Hcall. destruct Hcall.
Qed.

(** X12: What a start from a model directory gives: the container runs the
    image built under the derived tag, its model argument is the path
    under [/data/], the handle names the container and the local port,
    and the teardown that follows a normal exit has the built image to
    remove. *)
Theorem directory_model_runs_derived_image (D : string)
    (tok : option string) (w : world) (service model : string)
    (trust : bool) h rest t :
  isdir w model = true ->
  docker_launcher D tok w service model trust tt = (inl (h, rest), tt, t) ->
  exists id,
    build w = inl id
    /\ In (ContainersRun
             (derived_tag (make_container_name service (port w)))
             (launch_args ("/data/" +:+ model) trust)
             (make_container_name service (port w))
             (compose_env tok w) (port w)) t
    /\ h = MkHandle service (make_container_name service (port w))
             ("http://localhost:" +:+ str_of_nat (port w))
    /\ rest Next
       = teardown w (make_container_name service (port w)) (Some id).
Proof.
  intros Hdir Hstart.
  destruct (provision_cleans_build_context D w
              (make_container_name service (port w)) model Hdir)
    as (t1 & Hprov & _).
  rewrite docker_launcher_run in Hstart. cbv zeta in Hstart.
  rewrite Hprov in Hstart.
  destruct (cleanup_stale w _ tt) as [[[[]|e0] []] t0]; [|discriminate].
  destruct (copytree w) as [[]|e1]; [|discriminate].
  destruct (build w) as [id|e2]; [|discriminate].
  destruct (run w) as [[]|e3]; [|discriminate].
  injection Hstart as <- <- <-.
  exists id. split; [reflexivity|]. split; [|split; reflexivity].
  apply in_or_app. right. apply in_or_app. right. left. reflexivity.
Qed.

(** X13: After a normal exit of the body the teardown runs exactly once: the
    with statement ends normally, and the calls of the teardown in its
    whole trace are those of the body followed by stop, wait when stop
    did not raise, the removal of the container and, for a model
    directory, the removal of the built image. *)
Theorem normal_exit_tears_down_once (D : string) (tok : option string)
    (w : world) (service model : string) (trust : bool)
    (body : ContainerLauncherHandle -> M event unit unit) h rest t1 t2 :
  docker_launcher D tok w service model trust tt = (inl (h, rest), tt, t1) ->
  body h tt = (inl tt, tt, t2) ->
  exists t,
    with_ (docker_launcher D tok w service model trust) body tt
    = (inl tt, tt, t)
    /\ teardown_calls t
       = teardown_calls t2
         ++ [Stop Started (Some 60)]
         ++ (match stop w with
             | inl _ => [Wait Started (Some 60)]
             | inr _ => []
             end)
         ++ [Remove true]
         ++ (if isdir w model then [ImageRemove true] else []).
Proof.
  intros Hstart Hbody.
  rewrite (with_run _ body h rest t1 Hstart), Hbody.
  pose proof (launcher_start_quiet _ _ _ _ _ _ _ _ Hstart) as Hquiet.
  assert (Himage : exists image,
            rest Next = teardown w (make_container_name service (port w)) image
            /\ (match image with Some _ => true | None => false end)
               = isdir w model).
  { destruct (isdir w model) eqn:Hdir.
    - destruct (directory_model_runs_derived_image D tok w service model
                  trust h rest t1 Hdir Hstart) as (id & _ & _ & _ & Hrest).
      exists (Some id). auto.
    - apply docker_launcher_started in Hstart
        as (_ & tag & image & model_id & -> & _ & Hhub).
      destruct (Hhub Hdir) as (_ & -> & _). exists None. auto. }
  destruct Himage as (image & -> & Hsome).
  destruct (teardown_runs w (make_container_name service (port w)) image)
    as (t3 & -> & Hcalls).
  eexists. split; [reflexivity|].
  unfold teardown_calls in *.
  rewrite !List.filter_app, Hquiet, Hcalls. cbn [app].
  rewrite <- Hsome. now destruct image.
Qed.

(** X14: What the teardown logs: every exception it suppresses is handed to
    [logger.exception], in the order of the steps, except a [NotFound]
    of the image removal, which is dropped without a log. *)
Theorem teardown_logs_what_it_suppresses (w : world) (container : string)
    (image : option string) :
  exists tr,
    teardown w container image tt = (inl tt, tt, tr)
    /\ logged_exceptions tr
       = (match stop w with
          | inr e => [e]
          | inl _ => raised (wait w)
          end)
         ++ raised (remove w)
         ++ (match image, image_remove w with
             | Some _, inr NotFound => []
             | Some _, r => raised r
             | None, _ => []
             end).
Proof.
  unfold teardown, try_finally, try_except, mbind, M_bind, bind, call, emit,
    mret, M_ret, ret, raised.
  destruct (stop w) as [[]|e1]; [destruct (wait w) as [[]|e2]|];
    (destruct (remove w) as [[]|e3];
     [|];
     (destruct image as [id|];
      [destruct (image_remove w) as [[]|e4]; [|destruct e4] |]));
    eexists; (split; [reflexivity|]); reflexivity.
Qed.

(** X15: Container names do not collide: two launches get the same container
    name only for the same service name and the same port. *)
Theorem container_name_inj (s s' : string) (p p' : nat) :
  make_container_name s p = make_container_name s' p' ->
  s = s' /\ p = p'.
Proof.
  intros H. apply derived_tag_inj. unfold derived_tag. now rewrite H.
Qed.

End LauncherCompletions.

(** ** The load generator: what is sent and what the order is *)

Section LoadCompletions.
Import Load.
Variable Response : Type.

(** X16: Every request is sent once and none is sent again: whatever the
    requests do, the load generator makes [n] identical calls of
    [client.generate], with the details of the decoder input asked for,
    and nothing else; for [n <= 0] it makes none and returns the empty
    list. *)
Theorem generate_load_sends_every_request_once
    (client : nat -> fate Response) (prompt : string)
    (max_new_tokens n : Z) :
  exists r,
    generate_load_inner Response client prompt max_new_tokens n tt
    = (r, tt, repeat (GenerateCall prompt max_new_tokens true) (Z.to_nat n))
    /\ ((n <= 0)%Z -> r = inl []).
Proof.
  rewrite generate_load_run. eexists. split.
  - f_equal. unfold range. generalize 0.
    induction (Z.to_nat n) as [|k IH]; intros start; [reflexivity|].
    cbn [seq map repeat]. now rewrite IH.
  - intros Hn. unfold range.
    replace (Z.to_nat n) with 0 by lia. reflexivity.
Qed.

(** X17: The order in which the requests finish does not show in a successful
    result: two runs whose requests give the same responses, finishing at
    whatever instants, return the same list. *)
Theorem generate_load_ignores_completion_order
    (client client' : nat -> fate Response) (prompt : string)
    (max_new_tokens n : Z) :
  (forall i, i < Z.to_nat n ->
     exists a, outcome Response (client i) = inl a
               /\ outcome Response (client' i) = inl a) ->
  generate_load_inner Response client prompt max_new_tokens n tt
  = generate_load_inner Response client' prompt max_new_tokens n tt.
Proof.
  intros Hsame. rewrite !generate_load_run.
  assert (Hin : forall (c : nat -> fate Response) f,
                  In f (map c (range n)) ->
                  exists i, i < Z.to_nat n /\ f = c i).
  { intros c f. unfold range. rewrite in_map_iff.
    intros (i & <- & Hi). apply in_seq in Hi. exists i. split; [lia|auto]. }
  assert (H1 : first_failure Response (map client (range n)) = None).
  { apply first_failure_all_succeed. intros f Hf.
    apply Hin in Hf as (i & Hi & ->).
    destruct (Hsame i Hi) as (a & Ha & _). eauto. }
  assert (H2 : first_failure Response (map client' (range n)) = None).
  { apply first_failure_all_succeed. intros f Hf.
    apply Hin in Hf as (i & Hi & ->).
    destruct (Hsame i Hi) as (a & _ & Ha). eauto. }
  rewrite H1, H2.
  apply first_failure_none in H1, H2.
  assert (Heq : map inl (successes Response (map client (range n)))
                = map (@inl Response exn)
                    (successes Response (map client' (range n)))).
  { rewrite H1, H2, !map_map. apply map_ext_in. intros i Hi.
    unfold range in Hi. apply in_seq in Hi.
    destruct (Hsame i ltac:(lia)) as (a & -> & ->). reflexivity. }
  assert (Hinj : forall l l' : list Response,
            map (@inl Response exn) l = map inl l' -> l = l').
  { induction l as [|x l IH]; intros [|y l'] Hl; try discriminate Hl;
      [reflexivity|].
    injection Hl as -> Hl. f_equal. now apply IH. }
  rewrite (Hinj _ _ Heq). reflexivity.
Qed.

End LoadCompletions.

(** ** The further statements at concrete inputs *)




Lemma health_ready_only_after_answer_witness :
  (0 < 5)%Z
  /\ exists k st,
       k < Z.to_nat 5
       /\ (forall j, j < k -> keeps_waiting (ready_at_2 j) = true)
       /\ Health.get_result (ready_at_2 k) = inl st
       /\ Health.status_is_live st = true
       /\ Health.reply (ready_at_2 k) = inl tt
       /\ elapsed (snd (Health.health [] ready_at_2 5 (Health.Handle 0))) = k.
Proof.
  exact (health_ready_only_after_answer [] ready_at_2 5 (Health.Handle 0)
           _ _ eq_refl).
Defined.

Lemma health_never_prints_nothing_witness :
  In (Health.Print "a")
    (snd (Health.health three_lines never_ready 1 (Health.Handle 0)))
  /\ "a" <> "".
Proof.
  assert (Hin : In (Health.Print "a")
                  (snd (Health.health three_lines never_ready 1
                          (Health.Handle 0))))
    by (vm_compute; tauto).
  split; [exact Hin|].
  exact (health_never_prints_nothing three_lines never_ready 1
           (Health.Handle 0) "a" Hin).
Defined.

Lemma old_lines_are_never_printed_witness :
  exists bs h' tr,
    poll_all three_lines [never_ready 2; never_ready 3] (Health.Handle 20)
    = (inl bs, h', tr)
    /\ stdout tr = ""
    /\ length bs = 2.
Proof.
  apply (old_lines_are_never_printed three_lines 20
           [never_ready 2; never_ready 3]).
  - simpl. lia.
  - reflexivity.
  - intros l [<-|[<-|[<-|[]]]]; simpl; lia.
Defined.

Lemma failed_start_runs_no_body_no_teardown_witness :
  exists t,
    Launcher.with_
      (Launcher.docker_launcher "neuronx-tgi:latest" None run_fails_world
         "gpt2" "gpt2" false)
      passing_body tt
    = (inr (OtherException "no such device"), tt, t)
    /\ teardown_calls t = [].
Proof.
  eexists.
  apply (failed_start_runs_no_body_no_teardown "neuronx-tgi:latest" None
           run_fails_world "gpt2" "gpt2" false).
  reflexivity.
Defined.

Lemma stale_error_aborts_launch_witness :
  exists t,
    Launcher.docker_launcher "neuronx-tgi:latest" None stale_error_world
      "gpt2" "gpt2" false tt
    = (inr (OtherException "conflict"), tt, t)
    /\ launch_steps t = [].
Proof.
  apply (stale_error_aborts_launch "neuronx-tgi:latest" None
           stale_error_world "gpt2" "gpt2" false).
  - reflexivity.
  - discriminate.
Defined.

Lemma started_after_stale_cleanup_witness :
  exists h rest t t',
    Launcher.docker_launcher "neuronx-tgi:latest" None stale_world
      "gpt2" "gpt2" false tt
    = (inl (h, rest), tt, t)
    /\ t = [Launcher.ContainersGet "tgi-tests-gpt2-8123";
            Launcher.Stop Launcher.Stale None;
            Launcher.Wait Launcher.Stale None] ++ t'.
Proof.
  destruct (started_after_stale_cleanup "neuronx-tgi:latest" None stale_world
              "gpt2" "gpt2" false _ _ _ eq_refl) as (_ & t' & Ht).
  eexists _, _, _, t'. split; [reflexivity|]. exact Ht.
Defined.

Lemma provision_cleans_build_context_witness :
  exists t,
    Launcher.provision "neuronx-tgi:latest" calm_world "tgi-tests-gpt2-8123"
      "/tmp/model" tt
    = (inl ("tgi-tests-gpt2-8123-img", Some "sha256:1", "/data//tmp/model"),
       tt, t)
    /\ build_context_steps t
       = [Launcher.TempDirCreate; Launcher.CopyTree "/tmp/model";
          Launcher.WriteDockerfile "neuronx-tgi:latest" "/data//tmp/model";
          Launcher.ImagesBuild "tgi-tests-gpt2-8123-img";
          Launcher.TempDirCleanup].
Proof.
  exact (provision_cleans_build_context "neuronx-tgi:latest" calm_world
           "tgi-tests-gpt2-8123" "/tmp/model" eq_refl).
Defined.

Lemma run_failure_leaves_built_image_witness :
  exists t,
    Launcher.with_
      (Launcher.docker_launcher "neuronx-tgi:latest" None run_fails_world
         "gpt2" "/tmp/model" false)
      passing_body tt
    = (inr (OtherException "no such device"), tt, t)
    /\ In (Launcher.ImagesBuild "tgi-tests-gpt2-8123-img") t
    /\ teardown_calls t = []
    /\ (forall force, ~ In (Launcher.ImageRemove force) t).
Proof.
  apply (run_failure_leaves_built_image "neuronx-tgi:latest" None
           run_fails_world "gpt2" "/tmp/model" false "sha256:1"
           (OtherException "no such device") passing_body).
  - right. reflexivity.
  - reflexivity.
  - reflexivity.
  - reflexivity.
  - reflexivity.
Defined.

Lemma directory_model_runs_derived_image_witness :
  exists id,
    Launcher.build calm_world = inl id
    /\ In (Launcher.ContainersRun "tgi-tests-gpt2-8123-img"
             ["--model-id"; "/data//tmp/model"; "--env";
              "--trust-remote-code"]
             "tgi-tests-gpt2-8123"
             (Launcher.compose_env (Some "hf_token") calm_world) 8123)
          (snd (Launcher.docker_launcher "neuronx-tgi:latest"
                  (Some "hf_token") calm_world "gpt2" "/tmp/model" true tt)).
Proof.
  destruct (directory_model_runs_derived_image "neuronx-tgi:latest"
              (Some "hf_token") calm_world "gpt2" "/tmp/model" true
              _ _ _ eq_refl eq_refl) as (id & Hid & Hrun & _).
  exists id. split; [exact Hid | exact Hrun].
Defined.

Lemma normal_exit_tears_down_once_witness :
  exists t,
    Launcher.with_
      (Launcher.docker_launcher "neuronx-tgi:latest" None calm_world
         "gpt2" "/tmp/model" false)
      passing_body tt
    = (inl tt, tt, t)
    /\ teardown_calls t
       = [Launcher.Stop Launcher.Started (Some 60);
          Launcher.Wait Launcher.Started (Some 60);
          Launcher.Remove true; Launcher.ImageRemove true].
Proof.
  destruct (normal_exit_tears_down_once "neuronx-tgi:latest" None calm_world
              "gpt2" "/tmp/model" false passing_body _ _ _ _
              eq_refl eq_refl) as (t & Hrun & Hcalls).
  exists t. split; [exact Hrun | exact Hcalls].
Defined.

Lemma container_name_inj_witness :
  "gpt2" = "gpt2" /\ 8123 = 8123.
Proof.
  apply (container_name_inj "gpt2" "gpt2" 8123 8123). reflexivity.
Defined.

Lemma generate_load_ignores_completion_order_witness :
  Load.generate_load_inner string all_answer
    "It was a bright cold day in April" 20 4 tt
  = Load.generate_load_inner string all_answer_in_order
      "It was a bright cold day in April" 20 4 tt.
Proof.
  apply (generate_load_ignores_completion_order string all_answer
           all_answer_in_order).
  intros i _. eexists. split; reflexivity.
Defined.
